(** * A shallow embedding of the CPU jitter entropy collector

    The development follows the C code of the collector function by
    function.  Machine integers are [Z] with the wrap-around written
    out, the entropy collector struct is a record, the timer is an
    oracle that is consumed one reading per call, and the loops of the
    code that may spin for ever (the von-Neumann unbiaser, and the
    generation loop when its bound is beyond its counter) are driven by
    a bound on the number of their rounds. *)

From Stdlib Require Import ZArith List Bool Lia.
From stdpp Require Import base list.
Import ListNotations.

Local Open Scope Z_scope.

(** ** Machine arithmetic *)

Module U64.

(** Modelled from the spec: [DATA_SIZE_BITS] is defined in the header,
    which is not part of the sources at hand; the spec gives it as 64,
    the width of [__u64]. *)
Definition DATA_SIZE_BITS : Z := 64.

Definition modulus : Z := 2 ^ DATA_SIZE_BITS.

Definition wrap (x : Z) : Z := x mod modulus.

Definition in_range (x : Z) : Prop := 0 <= x < modulus.

Definition shl (x n : Z) : Z := wrap (Z.shiftl x n).

Definition shr (x n : Z) : Z := Z.shiftr x n.

(** Modelled from the spec: [rol64] comes from the header, which is not
    part of the sources at hand; the spec calls it [rotate_left_64]. *)
Definition rol64 (x n : Z) : Z :=
  Z.lor (shl x n) (shr x (DATA_SIZE_BITS - n)).

End U64.

Module U32.

Definition modulus : Z := 2 ^ 32.

Definition wrap (x : Z) : Z := x mod modulus.

(** Conversion of a [size_t] to the [int] that [jent_read_entropy]
    returns. *)
Definition to_int (x : Z) : Z := (x + 2 ^ 31) mod modulus - 2 ^ 31.

End U32.

Import U64.

(** ** The entropy collector *)

(** [struct rand_data].  [mem] is [None] for a NULL pointer. *)
Record rand_data : Type := mk_rand_data {
  data : Z;
  prev_time : Z;
  old_data : Z;
  fips_fail : bool;
  osr : Z;
  stir : bool;
  disable_unbias : bool;
  mem : option (list Z);
  memlocation : Z;
  memblocks : Z;
  memblocksize : Z;
  memaccessloops : Z
}.

Definition set_data (c : rand_data) (v : Z) : rand_data :=
  mk_rand_data v (prev_time c) (old_data c) (fips_fail c) (osr c) (stir c)
    (disable_unbias c) (mem c) (memlocation c) (memblocks c)
    (memblocksize c) (memaccessloops c).

Definition set_prev_time (c : rand_data) (v : Z) : rand_data :=
  mk_rand_data (data c) v (old_data c) (fips_fail c) (osr c) (stir c)
    (disable_unbias c) (mem c) (memlocation c) (memblocks c)
    (memblocksize c) (memaccessloops c).

Definition set_old_data (c : rand_data) (v : Z) : rand_data :=
  mk_rand_data (data c) (prev_time c) v (fips_fail c) (osr c) (stir c)
    (disable_unbias c) (mem c) (memlocation c) (memblocks c)
    (memblocksize c) (memaccessloops c).

Definition set_fips_fail (c : rand_data) (v : bool) : rand_data :=
  mk_rand_data (data c) (prev_time c) (old_data c) v (osr c) (stir c)
    (disable_unbias c) (mem c) (memlocation c) (memblocks c)
    (memblocksize c) (memaccessloops c).

Definition set_mem (c : rand_data) (m : option (list Z)) (loc : Z)
  : rand_data :=
  mk_rand_data (data c) (prev_time c) (old_data c) (fips_fail c) (osr c)
    (stir c) (disable_unbias c) m loc (memblocks c)
    (memblocksize c) (memaccessloops c).

(** ** The platform *)

(** What the collector sees of the platform.  The timer is an oracle:
    [timer n] is what the [n]-th call of [jent_get_nstime] reads, and
    [ticks] counts the calls so far.  [fips_mode] is what
    [jent_fips_enabled] answers.  [measured] is a ghost counter of the
    calls of [jent_measure_jitter]; no code reads it. *)
Record World : Type := mk_World {
  timer : nat -> Z;
  ticks : nat;
  fips_mode : bool;
  measured : nat
}.

(** Modelled from the spec: [jent_get_nstime] is a platform primitive
    declared in the header, which is not part of the sources at hand.
    The spec describes it as a nanosecond timer returning a 64-bit
    value. *)
Definition jent_get_nstime (w : World) : Z * World :=
  (wrap (timer w (ticks w)),
   mk_World (timer w) (S (ticks w)) (fips_mode w) (measured w)).

(** Modelled from the spec: [jent_fips_enabled] is a platform primitive
    declared in the header, which is not part of the sources at hand.
    The spec describes it as the predicate "FIPS mode enabled". *)
Definition jent_fips_enabled (w : World) : bool := fips_mode w.

Definition count_measurement (w : World) : World :=
  mk_World (timer w) (ticks w) (fips_mode w) (S (measured w)).

(** ** Running collector code

    Code that may fail to return is a partial state transformer over the
    collector and the platform; [None] stands for a run that was cut off
    because a loop used up its bound. *)

Definition M (A : Type) : Type :=
  rand_data -> World -> option (A * rand_data * World).

Definition ret {A : Type} (a : A) : M A := fun c w => Some (a, c, w).

Definition bind {A B : Type} (m : M A) (k : A -> M B) : M B :=
  fun c w =>
    match m c w with
    | Some (a, c', w') => k a c' w'
    | None => None
    end.

Definition total {A : Type}
    (f : rand_data -> World -> A * rand_data * World) : M A :=
  fun c w => Some (f c w).

Definition get : M rand_data := fun c w => Some (c, c, w).

Definition world : M World := fun c w => Some (w, c, w).

Definition modify (f : rand_data -> rand_data) : M unit :=
  fun c w => Some (tt, f c, w).

Definition stuck {A : Type} : M A := fun _ _ => None.

Notation "'let*' x ':=' m 'in' k" := (bind m (fun x => k))
  (at level 10, x pattern, m at level 100, k at level 200).
Notation "'exec' m 'in' k" := (bind m (fun _ => k))
  (at level 10, m at level 100, k at level 200).

(** ** The noise sources and the entropy processing *)

Section Collector.

(** Compile-time parameters.  [TIME_ENTROPY_BITS] is defined in the
    header (the canonical build has 1).  [WIDE_DATA_SIZE] stands for
    the type the header gives [DATA_SIZE_BITS], which decides how the
    loop bound of [jent_gen_entropy] is computed: in 64 bits (a
    [sizeof] expression or a long constant on a 64 bit platform) or in
    the 32 bits of [unsigned int] (an [int] constant, or [size_t] on a
    32 bit platform).  [SECURE_MEMORY] stands for
    [CONFIG_CRYPTO_CPU_JITTERENTROPY_SECURE_MEMORY] being defined. *)
Variable TIME_ENTROPY_BITS : Z.
Variable WIDE_DATA_SIZE : bool.
Variable SECURE_MEMORY : bool.

(** *** [jent_loop_shuffle] *)

Fixpoint shuffle_loop (n : nat) (bits mask time shuffle : Z) : Z :=
  match n with
  | O => shuffle
  | S n' =>
      shuffle_loop n' bits mask (shr time bits)
        (Z.lxor shuffle (Z.land time mask))
  end.

Definition jent_loop_shuffle (ec : option rand_data) (bits min : Z)
    (w : World) : Z * World :=
  let mask := U32.wrap (Z.shiftl 1 bits - 1) in
  let '(time, w1) := jent_get_nstime w in
  let time := match ec with
              | Some c => Z.lxor time (data c)
              | None => time
              end in
  let shuffle :=
    shuffle_loop (Z.to_nat (DATA_SIZE_BITS / bits)) bits mask time 0 in
  (wrap (shuffle + Z.shiftl 1 min), w1).

(** *** [jent_fold_time] *)

Definition MAX_FOLD_LOOP_BIT : Z := 4.
Definition MIN_FOLD_LOOP_BIT : Z := 0.

(** The inner loop, [i] running from its current value for [n] more
    rounds. *)
Fixpoint fold_inner (n : nat) (i time new : Z) : Z :=
  match n with
  | O => new
  | S n' =>
      let tmp := shl time (DATA_SIZE_BITS - TIME_ENTROPY_BITS * i) in
      let tmp := shr tmp (DATA_SIZE_BITS - TIME_ENTROPY_BITS) in
      fold_inner n' (i + 1) time (Z.lxor new tmp)
  end.

(** One pass of the outer loop body: [new = 0] and the inner loop. *)
Definition fold_pass (time : Z) : Z :=
  fold_inner (Z.to_nat (DATA_SIZE_BITS / TIME_ENTROPY_BITS)) 1 time 0.

Fixpoint fold_outer (n : nat) (time new : Z) : Z :=
  match n with
  | O => new
  | S n' => fold_outer n' time (fold_pass time)
  end.

(** Returns the folded value, the loop count and the world. *)
Definition jent_fold_time (ec : option rand_data) (time loop_cnt : Z)
    (w : World) : Z * Z * World :=
  let '(shuffled, w1) :=
    jent_loop_shuffle ec MAX_FOLD_LOOP_BIT MIN_FOLD_LOOP_BIT w in
  let fold_loop_cnt := if loop_cnt =? 0 then shuffled else loop_cnt in
  (fold_outer (Z.to_nat fold_loop_cnt) time 0, fold_loop_cnt, w1).

(** *** [jent_memaccess]

    A location outside the buffer and a zero [wrap] are undefined in
    C; here the buffer is then left as it is and [x mod 0] is what
    [Z.modulo] makes of it. *)
Definition memaccess_step (bsz wrap_at : Z) (st : list Z * Z)
    : list Z * Z :=
  let '(m, loc) := st in
  let m' := match m !! Z.to_nat loc with
            | Some v => <[Z.to_nat loc := Z.land (v + 1) 255]> m
            | None => m
            end in
  let loc1 := U32.wrap (loc + bsz - 1) in
  (m', loc1 mod wrap_at).

Definition jent_memaccess (c : rand_data) : rand_data :=
  match mem c with
  | None => c
  | Some m =>
      let wrap_at := U32.wrap (memblocksize c * memblocks c) in
      let '(m', loc') :=
        Nat.iter (Z.to_nat (memaccessloops c))
          (memaccess_step (memblocksize c) wrap_at) (m, memlocation c) in
      set_mem c (Some m') loc'
  end.

(** *** [jent_measure_jitter] *)

Definition jent_measure_jitter (c : rand_data) (w : World)
    : Z * rand_data * World :=
  let c1 := jent_memaccess c in
  let '(time, w1) := jent_get_nstime w in
  let delta := wrap (time - prev_time c1) in
  let c2 := set_prev_time c1 time in
  let '(folded, _, w2) := jent_fold_time (Some c2) delta 0 w1 in
  (folded, c2, count_measurement w2).

(** *** [jent_unbiased_bit]

    [fuel] bounds the number of sample pairs the [do ... while (1)]
    loop may draw. *)

Fixpoint unbias_loop (fuel : nat) (c : rand_data) (w : World)
    : option (Z * rand_data * World) :=
  match fuel with
  | O => None
  | S fuel' =>
      let '(a, c1, w1) := jent_measure_jitter c w in
      let '(b, c2, w2) := jent_measure_jitter c1 w1 in
      if a =? b then unbias_loop fuel' c2 w2
      else if 1 =? a then Some (1, c2, w2)
      else Some (0, c2, w2)
  end.

Definition jent_unbiased_bit (fuel : nat) : M Z :=
  fun c w =>
    if disable_unbias c then Some (jent_measure_jitter c w)
    else unbias_loop fuel c w.

(** *** [jent_stir_pool]

    The two unions are laid out as on a little endian machine, which
    is the case the comment in the code describes. *)

Definition stir_constant : Z := 0x67452301efcdab89.
Definition stir_mixer : Z := 0x98badcfe10325476.

Fixpoint stir_loop (n : nat) (i d mixer : Z) : Z :=
  match n with
  | O => mixer
  | S n' =>
      let mixer := if Z.land (shr d i) 1 =? 0 then mixer
                   else Z.lxor mixer stir_constant in
      stir_loop n' (i + 1) d (rol64 mixer 1)
  end.

Definition stir_value (d : Z) : Z :=
  Z.lxor d (stir_loop (Z.to_nat DATA_SIZE_BITS) 0 d stir_mixer).

Definition jent_stir_pool (c : rand_data) : rand_data :=
  set_data c (stir_value (data c)).

(** *** [jent_gen_entropy]

    [jent_bit_count] is compiled to nothing outside the statistics
    build.  The loop bound is a product with the [unsigned int] [osr],
    computed in the width that [WIDE_DATA_SIZE] says, and read anew
    before every round.  The counter [k] is an [unsigned int]: it wraps
    to 0 after [2 ^ 32 - 1], and the round after that primes again. *)

Definition gen_rounds (c : rand_data) : Z :=
  let bound := ((DATA_SIZE_BITS - 1) / TIME_ENTROPY_BITS + 1) * osr c in
  if WIDE_DATA_SIZE then U64.wrap bound else U32.wrap bound.

(** The [for] loop from the counter value [k] on, cut off after [n]
    rounds.  A bound below [2 ^ 32] is reached after as many rounds; a
    bound of [2 ^ 32] or more is never reached, and the loop spins for
    ever. *)
Fixpoint gen_loop (n : nat) (k : Z) (fuel : nat) : M unit :=
  let* c := get in
  if k <? gen_rounds c then
    match n with
    | O => stuck
    | S n' =>
        exec (if k =? 0 then exec total jent_measure_jitter in ret tt
              else ret tt) in
        let* bit := jent_unbiased_bit fuel in
        exec modify (fun c => set_data c (Z.lxor (data c) bit)) in
        exec modify (fun c =>
                       set_data c (rol64 (data c) TIME_ENTROPY_BITS)) in
        gen_loop n' (U32.wrap (k + 1)) fuel
    end
  else ret tt.

(** The loop is given as many rounds as its bound says, which is what
    a bound within the counter takes. *)
Definition jent_gen_entropy (fuel : nat) : M unit :=
  let* c := get in
  exec gen_loop (Z.to_nat (gen_rounds c)) 0 fuel in
  let* c := get in
  if stir c then modify jent_stir_pool else ret tt.

(** *** [jent_fips_test] *)

Definition jent_fips_test (fuel : nat) : M Z :=
  let* w := world in
  if negb (jent_fips_enabled w) then ret 0
  else
    let* c := get in
    if fips_fail c then ret (-1)
    else
      exec (if old_data c =? 0
            then exec modify (fun c => set_old_data c (data c)) in
                 jent_gen_entropy fuel
            else ret tt) in
      let* c := get in
      if data c =? old_data c
      then exec modify (fun c => set_fips_fail c true) in ret (-1)
      else exec modify (fun c => set_old_data c (data c)) in ret 0.

(** *** [jent_read_entropy]

    The caller's buffer is a list of bytes and [p] an offset into it.
    [memcpy] takes the bytes of the pool in memory order, least
    significant byte first. *)

Definition pool_bytes (v : Z) (n : nat) : list Z :=
  map (fun i => Z.land (shr v (8 * Z.of_nat i)) 255) (seq 0 n).

Definition memcpy (buf : list Z) (p : nat) (v : Z) (n : nat) : list Z :=
  take p buf ++ pool_bytes v n ++ drop (p + n) buf.

(** The [while (0 < len)] loop.  Every round takes at least one byte
    off [len], so [n] rounds are enough for [len <= n]. *)
Fixpoint read_loop (n : nat) (fuel : nat) (buf : list Z) (p : nat)
    (len : Z) : M (Z * list Z) :=
  if 0 <? len then
    match n with
    | O => stuck
    | S n' =>
        exec jent_gen_entropy fuel in
        let* r := jent_fips_test fuel in
        if 0 >? r then ret (r, buf)
        else
          let* c := get in
          let tocopy := if DATA_SIZE_BITS / 8 <? len
                        then DATA_SIZE_BITS / 8 else len in
          read_loop n' fuel
            (memcpy buf p (data c) (Z.to_nat tocopy))
            (p + Z.to_nat tocopy)%nat (len - tocopy)
    end
  else ret (0, buf).

Definition read_body (fuel : nat) (buf : list Z) (len : Z)
    : M (Z * list Z) :=
  let* (r, buf') := read_loop (Z.to_nat len) fuel buf 0 len in
  if 0 >? r then ret (r, buf')
  else
    exec (if SECURE_MEMORY then ret tt else jent_gen_entropy fuel) in
    ret (U32.to_int len, buf').

(** The result is the returned [int], the buffer, the collector and
    the platform. *)
Definition jent_read_entropy (fuel : nat) (ec : option rand_data)
    (buf : list Z) (len : Z) (w : World)
    : option (Z * list Z * option rand_data * World) :=
  match ec with
  | None => Some (-2, buf, None, w)
  | Some c =>
      match read_body fuel buf len c w with
      | Some (r, buf', c', w') => Some (r, buf', Some c', w')
      | None => None
      end
  end.

(** *** [jent_entropy_init] *)

(** Modelled from the spec: the error codes are defined in the header,
    which is not part of the sources at hand.  Their numbers play no
    role, so the result is an enumeration of the names, with [INIT_OK]
    for the return value 0. *)
Inductive init_result : Type :=
| INIT_OK
| ENOTIME
| ECOARSETIME
| ENOMONOTONIC
| EMINVARIATION
| EVARVAR
| EMINVARVAR.

Definition TESTLOOPCOUNT : Z := 300.
Definition CLEARCACHE : Z := 100.

(** The local variables of [jent_entropy_init] that live across loop
    rounds. *)
Record init_vars : Type := mk_init_vars {
  delta_sum : Z;
  old_delta : Z;
  time_backwards : Z;
  count_var : Z;
  count_mod : Z
}.

Definition init_vars0 : init_vars := mk_init_vars 0 0 0 0 0.

(** C's [!x] on an integer. *)
Definition lnot (x : Z) : Z := if x =? 0 then 1 else 0.

(** The loop body for the counter value [i]: an early [return] or the
    variables for the next round. *)
Definition init_body (i : Z) (v : init_vars) (w : World)
    : init_result + init_vars * World :=
  let '(time, w1) := jent_get_nstime w in
  let '(_, _, w2) :=
    jent_fold_time None time (Z.shiftl 1 MIN_FOLD_LOOP_BIT) w1 in
  let '(time2, w3) := jent_get_nstime w2 in
  if (time =? 0) || (time2 =? 0) then inl ENOTIME
  else
    let delta := wrap (time2 - time) in
    if delta =? 0 then inl ECOARSETIME
    else if TIME_ENTROPY_BITS >? delta then inl EMINVARIATION
    else if CLEARCACHE >? i then inr (v, w3)
    else
      let tb := if negb (time2 >? time) then time_backwards v + 1
                else time_backwards v in
      let cm := if delta mod 100 =? 0 then count_mod v + 1
                else count_mod v in
      let '(cv, ds) :=
        if negb (i =? 0) then
          (if negb (delta =? old_delta v) then count_var v + 1
           else count_var v,
           if delta >? old_delta v
           then wrap (delta_sum v + (delta - old_delta v))
           else wrap (delta_sum v + (old_delta v - delta)))
        else (count_var v, delta_sum v) in
      inr (mk_init_vars ds delta tb cv cm, w3).

(** [n] rounds of the loop starting at counter value [i]. *)
Fixpoint init_loop (n : nat) (i : Z) (v : init_vars) (w : World)
    : init_result + init_vars * World :=
  match n with
  | O => inr (v, w)
  | S n' =>
      match init_body i v w with
      | inl e => inl e
      | inr (v', w') => init_loop n' (i + 1) v' w'
      end
  end.

(** The checks after the loop. *)
Definition init_checks (v : init_vars) : init_result :=
  if 3 <? time_backwards v then ENOMONOTONIC
  else if delta_sum v =? 0 then EVARVAR
  else if lnot (delta_sum v / TESTLOOPCOUNT) >? TIME_ENTROPY_BITS
       then EMINVARVAR
  else if TESTLOOPCOUNT / 10 * 9 <? count_mod v then ECOARSETIME
  else INIT_OK.

Definition jent_entropy_init (w : World) : init_result :=
  match init_loop (Z.to_nat (TESTLOOPCOUNT + CLEARCACHE)) 0 init_vars0 w
  with
  | inl e => e
  | inr (v, _) => init_checks v
  end.

End Collector.

(** ** Allocation and the statistics entry points *)

Section Lifecycle.

(** Compile-time parameters from the header, which is not part of the
    sources at hand: the width of a folded sample, the width of the
    loop bound of [jent_gen_entropy], the size and the geometry of the
    memory buffer, and the three flag bits. *)
Variable TIME_ENTROPY_BITS : Z.
Variable WIDE_DATA_SIZE : bool.
Variable JENT_MEMORY_SIZE : Z.
Variable JENT_MEMORY_BLOCKSIZE : Z.
Variable JENT_MEMORY_BLOCKS : Z.
Variable JENT_MEMORY_ACCESSLOOPS : Z.
Variable JENT_DISABLE_STIR : Z.
Variable JENT_DISABLE_UNBIAS : Z.
Variable JENT_DISABLE_MEMORY_ACCESS : Z.

(** C's [flags & f] used as a condition. *)
Definition flag_set (flags f : Z) : bool := negb (Z.land flags f =? 0).

(** *** [jent_entropy_collector_alloc]

    [struct_ok] and [mem_ok] are the answers of [jent_zalloc] to the
    two requests: [false] stands for NULL.  A granted request gives
    zeroed memory.  The outer [option] of the result is [None] when a
    generation pass is cut off, the inner one is [None] for NULL. *)
Definition jent_entropy_collector_alloc (fuel : nat) (osr flags : Z)
    (struct_ok mem_ok : bool) (w : World)
    : option (option rand_data * World) :=
  if negb struct_ok then Some (None, w)
  else
    let with_mem :=
      if negb (flag_set flags JENT_DISABLE_MEMORY_ACCESS) then
        if negb mem_ok then None
        else Some (Some (replicate (Z.to_nat JENT_MEMORY_SIZE) 0),
                   JENT_MEMORY_BLOCKSIZE, JENT_MEMORY_BLOCKS,
                   JENT_MEMORY_ACCESSLOOPS)
      else Some (None, 0, 0, 0) in
    match with_mem with
    | None => Some (None, w)
    | Some (m, blocksize, blocks, loops) =>
        let osr := if 0 =? osr then 1 else osr in
        let stirring := if flag_set flags JENT_DISABLE_STIR then false
                        else true in
        let no_unbias := if flag_set flags JENT_DISABLE_UNBIAS then true
                         else false in
        let c := mk_rand_data 0 0 0 false osr stirring no_unbias m 0
                   blocks blocksize loops in
        match (exec jent_gen_entropy TIME_ENTROPY_BITS WIDE_DATA_SIZE fuel in
               jent_fips_test TIME_ENTROPY_BITS WIDE_DATA_SIZE fuel) c w with
        | None => None
        | Some (_, c', w') => Some (Some c', w')
        end
    end.

(** *** [jent_fold_time_stat] (statistics build)

    Returns the folded value, the loop count, the collector and the
    platform. *)
Definition jent_fold_time_stat (ec : option rand_data) (w : World)
    : Z * Z * option rand_data * World :=
  let '(time, w1) := jent_get_nstime w in
  let ec1 := option_map jent_memaccess ec in
  let '(_, _, w2) := jent_fold_time TIME_ENTROPY_BITS ec1 time 0 w1 in
  let '(time2, w3) := jent_get_nstime w2 in
  let time2 := wrap (time2 - time) in
  let '(folded, loop_cnt, w4) :=
    jent_fold_time TIME_ENTROPY_BITS ec1 time2 0 w3 in
  (folded, loop_cnt, ec1, w4).

(** *** [jent_fold_var_stat] (statistics build)

    Returns the measured duration, the collector and the platform. *)
Definition jent_fold_var_stat (ec : option rand_data) (min : Z) (w : World)
    : Z * option rand_data * World :=
  let '(time, w1) := jent_get_nstime w in
  let ec1 := option_map jent_memaccess ec in
  let '(_, _, w2) := jent_fold_time TIME_ENTROPY_BITS None time min w1 in
  let '(time2, w3) := jent_get_nstime w2 in
  (wrap (time2 - time), ec1, w3).

End Lifecycle.

(** ** Vocabulary of the statements *)

(** The fold as the specification words it: the XOR of the
    [teb]-bit windows [0 .. N-1] of [t], with [N = 64 / teb]. *)
Definition window (teb t : Z) (i : nat) : Z :=
  Z.land (Z.shiftr t (teb * Z.of_nat i)) (Z.shiftl 1 teb - 1).

Definition xor_all (l : list Z) : Z := fold_right Z.lxor 0 l.

Definition fold_spec (teb t : Z) : Z :=
  xor_all (map (window teb t) (seq 0 (Z.to_nat (64 / teb)))).

(** One round of the unbiaser: two consecutive jitter samples. *)
Definition draw_pair (teb : Z) (c : rand_data) (w : World)
    : Z * Z * rand_data * World :=
  let '(a, c1, w1) := jent_measure_jitter teb c w in
  let '(b, c2, w2) := jent_measure_jitter teb c1 w1 in
  (a, b, c2, w2).




(** What a generation pass leaves alone in the collector and on the
    platform. *)
Definition same_settings (c c' : rand_data) : Prop :=
  old_data c' = old_data c /\ fips_fail c' = fips_fail c /\
  osr c' = osr c /\ stir c' = stir c /\
  disable_unbias c' = disable_unbias c.

Definition same_platform (w w' : World) : Prop :=
  timer w' = timer w /\ fips_mode w' = fips_mode w.

Definition ceil_div (a b : Z) : Z := (a + b - 1) / b.

(** The number of generation passes behind a successful read of at most
    8 bytes: the one that is handed out, the one that primes the FIPS
    test, and the one that scrubs the pool. *)
Definition read_passes (secure : bool) (c : rand_data) (w : World) : Z :=
  1 + (if fips_mode w && (old_data c =? 0) then 1 else 0)
    + (if secure then 0 else 1).

(** The least number of jitter measurements a round of the generation
    pass takes: one without the unbiaser, a pair with it. *)
Definition round_samples (c : rand_data) : Z :=
  if disable_unbias c then 1 else 2.

(** A linear map on bit vectors given by the images of the unit
    vectors, [cols] holding those of bits [i], [i + 1], ... *)
Fixpoint lin (cols : list Z) (i : Z) (x : Z) : Z :=
  match cols with
  | [] => 0
  | col :: cols' =>
      Z.lxor (if Z.testbit x i then col else 0) (lin cols' (i + 1) x)
  end.

(** The inverse of the linear part of the stir step. *)
Definition unstir_cols : list Z :=
  [ 0x77553311ffddbb98; 0x9382b1a0d7c6f5e6; 0x199108803bb32aa6;
    0xac6824e0bd7935f9; 0x977553311ffddba9; 0x49382b1a0d7c6f7e;
    0x2199108803bb32ea; 0x1ac6824e0bd793df; 0x9977553311ffdcbb;
    0xe49382b1a0d7c4f5; 0xa2199108803bb72a; 0xf1ac6824e0bd7135;
    0xb9977553311feddb; 0x5e49382b1a0d5c6f; 0xaa2199108803fb32;
    0x5f1ac6824e0b5793; 0xbb9977553310ffdd; 0xf5e49382b1a2d7c6;
    0x2aa2199108843bb3; 0x35f1ac6824e8bd79; 0xdbb9977553211ffd;
    0x6f5e49382b3a0d7c; 0x32aa219910c803bb; 0x935f1ac682ce0bd7;
    0xddbb9977543311ff; 0xc6f5e49380b1a0d7; 0xb32aa2199508803b;
    0x7935f1ac6024e0bd; 0xfddbb9976553311f; 0x7c6f5e49182b1a0d;
    0xbb32aa21d9108803; 0xd7935f1a46824e0b; 0xffddbb9877553311;
    0xd7c6f5e69382b1a0; 0x3bb32aa619910880; 0xbd7935f9ac6824e0;
    0x1ffddba997755331; 0x0d7c6f7e49382b1a; 0x03bb32ea21991088;
    0x0bd793df1ac6824e; 0x11ffdcbb99775533; 0xa0d7c4f5e49382b1;
    0x803bb72aa2199108; 0xe0bd7135f1ac6824; 0x311feddbb9977553;
    0x1a0d5c6f5e49382b; 0x8803fb32aa219910; 0x4e0b57935f1ac682;
    0x3310ffddbb997755; 0xb1a2d7c6f5e49382; 0x08843bb32aa21991;
    0x24e8bd7935f1ac68; 0x53211ffddbb99775; 0x2b3a0d7c6f5e4938;
    0x10c803bb32aa2199; 0x82ce0bd7935f1ac6; 0x543311ffddbb9977;
    0x80b1a0d7c6f5e493; 0x9508803bb32aa219; 0x6024e0bd7935f1ac;
    0x6553311ffddbb997; 0x182b1a0d7c6f5e49; 0xd9108803bb32aa21;
    0x46824e0bd7935f1a ].

Definition unstir (y : Z) : Z := lin unstir_cols 0 (Z.lxor y stir_mixer).

(** The linear part of the stir step: the stir step on a mixer that
    starts from zero. *)
Definition stir_linear (d : Z) : Z :=
  Z.lxor d (stir_loop (Z.to_nat DATA_SIZE_BITS) 0 d 0).

(** The one pool value that the stir step sends to zero. *)
Definition stir_zero_point : Z := 0x88aaccee00224466.

(** ** Inputs used in the examples *)

Definition boot (t : nat -> Z) (fips : bool) : World := mk_World t 0 fips 0.

(** A timer that does not move. *)
Definition stuck_timer : nat -> Z := fun _ => 42.

(** A timer that advances by one per reading. *)
Definition steady_timer : nat -> Z := fun n => Z.of_nat n + 1.

(** A timer that speeds up: reading [n] is [n * n / 3]. *)
Definition drifting_timer : nat -> Z := fun n => Z.of_nat (n * n / 3).

(** A timer under which the deltas seen by the startup test alternate
    between 2 and 3 (the test reads the timer three times per round). *)
Definition wobbling_timer : nat -> Z := fun n =>
  let i := Z.of_nat (n / 3) in
  match (n mod 3)%nat with
  | O => 10 * i + 1
  | S O => 10 * i + 2
  | _ => 10 * i + 3 + i mod 2
  end.

(** A timer whose first reading is 44 and whose third is 45: a collector
    with [prev_time = 42] sees the deltas 2 and 1. *)
Definition two_then_one_timer : nat -> Z := fun n =>
  match n with
  | O => 44
  | S O => 44
  | _ => 45
  end.

(** A timer that advances by 100 per reading. *)
Definition coarse_timer : nat -> Z := fun n => 100 * (Z.of_nat n + 1).

(** A collector without memory buffer, with oversampling rate 1. *)
Definition collector (pool old : Z) (failed stirring no_unbias : bool)
    : rand_data :=
  mk_rand_data pool 42 old failed 1 stirring no_unbias None 0 0 0 0.

(** ** Vocabulary of the further statements *)

(** The value of a sequence of bytes, least significant byte first. *)
Definition bytes_value (l : list Z) : Z :=
  fold_right (fun b acc => b + 256 * acc) 0 l.

Definition is_byte (b : Z) : Prop := 0 <= b < 256.

(** The memory buffer and the walk over it fit together: the buffer
    spans [memblocksize * memblocks] bytes and the current location
    lies inside it. *)
Definition mem_wf (c : rand_data) : Prop :=
  match mem c with
  | None => True
  | Some m =>
      0 < memblocksize c /\ 0 < memblocks c /\
      memblocksize c * memblocks c < 2 ^ 31 /\
      Z.of_nat (length m) = memblocksize c * memblocks c /\
      0 <= memlocation c < memblocksize c * memblocks c /\
      Forall is_byte m
  end.

(** A property of the collector that no step of the entropy processing
    can break: the memory walk, the update of the time stamp, the
    accumulation of a sample into the pool, the stir step, and the two
    updates of the FIPS state keep it. *)
Definition stable (teb : Z) (P : rand_data -> Prop) : Prop :=
  (forall c, P c -> P (jent_memaccess c)) /\
  (forall c v, P c -> P (set_prev_time c v)) /\
  (forall c bit, 0 <= bit < 2 ^ teb -> P c ->
     P (set_data c (rol64 (Z.lxor (data c) bit) teb))) /\
  (forall c, P c -> P (jent_stir_pool c)) /\
  (forall c, P c -> P (set_old_data c (data c))) /\
  (forall c, P c -> P (set_fips_fail c true)).

(** Reading number [k] from now of the timer, as a 64-bit value. *)
Definition reading (w : World) (k : nat) : Z :=
  wrap (timer w (ticks w + k)).

(** The delta that round [i] of the startup test sees: the test reads
    the timer three times per round and takes the first and the third
    reading. *)
Definition round_delta (w : World) (i : nat) : Z :=
  wrap (reading w (3 * i + 2) - reading w (3 * i)).

(** How many of the rounds [0 .. n - 1] satisfy [g]. *)
Fixpoint count_upto (g : nat -> bool) (n : nat) : Z :=
  match n with
  | O => 0
  | S n' => count_upto g n' + (if g n' then 1 else 0)
  end.

(** Round [i] of the startup test sees time standing still or running
    backwards: its second reading is not above its first. *)
Definition backward_round (w : World) (i : nat) : bool :=
  negb (reading w (3 * i + 2) >? reading w (3 * i)).

(** Round [i] of the startup test sees a delta that is a multiple of
    100. *)
Definition coarse_round (w : World) (i : nat) : bool :=
  round_delta w i mod 100 =? 0.

(** Round [i] is a measured one, past the warm-up. *)
Definition measured_round (i : nat) : bool := (100 <=? i)%nat.

Arguments jent_measure_jitter : simpl never.
Arguments draw_pair : simpl never.
Arguments jent_stir_pool : simpl never.
Arguments jent_unbiased_bit : simpl never.
Arguments jent_gen_entropy : simpl never.
Arguments jent_fips_test : simpl never.

(** * Properties *)

(** ** Bits and machine words *)

Lemma testbit_small (n x i : Z) :
  0 <= x < 2 ^ n -> 0 <= n <= i -> Z.testbit x i = false.
Proof.
  intros Hx Hi.
  rewrite <- (Z.mod_small x (2 ^ n)) by assumption.
  apply Z.mod_pow2_bits_high; lia.
Qed.

Lemma small_of_testbit (n x : Z) :
  0 <= n -> 0 <= x ->
  (forall i, n <= i -> Z.testbit x i = false) -> x < 2 ^ n.
Proof.
  intros Hn Hx Hbits.
  assert (Heq : x = x mod 2 ^ n).
  { apply Z.bits_inj'; intros i Hi.
    destruct (Z.lt_ge_cases i n) as [Hlt | Hge].
    - now rewrite Z.mod_pow2_bits_low.
    - rewrite Z.mod_pow2_bits_high by lia. now apply Hbits. }
  rewrite Heq. apply Z.mod_pos_bound. apply Z.pow_pos_nonneg; lia.
Qed.

Lemma lxor_small (n a b : Z) :
  0 <= n -> 0 <= a < 2 ^ n -> 0 <= b < 2 ^ n -> 0 <= Z.lxor a b < 2 ^ n.
Proof.
  intros Hn Ha Hb.
  assert (H0 : 0 <= Z.lxor a b) by (apply Z.lxor_nonneg; lia).
  split; [assumption |].
  apply small_of_testbit; try assumption.
  intros i Hi. rewrite Z.lxor_spec.
  rewrite (testbit_small n a), (testbit_small n b) by lia. reflexivity.
Qed.

Lemma lor_small (n a b : Z) :
  0 <= n -> 0 <= a < 2 ^ n -> 0 <= b < 2 ^ n -> 0 <= Z.lor a b < 2 ^ n.
Proof.
  intros Hn Ha Hb.
  assert (H0 : 0 <= Z.lor a b) by (apply Z.lor_nonneg; lia).
  split; [assumption |].
  apply small_of_testbit; try assumption.
  intros i Hi. rewrite Z.lor_spec.
  rewrite (testbit_small n a), (testbit_small n b) by lia. reflexivity.
Qed.

Lemma mask_ones (n : Z) : Z.shiftl 1 n - 1 = Z.ones n.
Proof. rewrite Z.ones_equiv, Z.shiftl_1_l. lia. Qed.

Lemma wrap_range (x : Z) : in_range (wrap x).
Proof. unfold in_range, wrap. apply Z.mod_pos_bound. reflexivity. Qed.

Lemma wrap_small (x : Z) : in_range x -> wrap x = x.
Proof. unfold in_range, wrap. intros H. now apply Z.mod_small. Qed.

(** ** The time-folding function *)

Section Fold.

Variable teb : Z.
Hypothesis teb_pos : 0 < teb.
Hypothesis teb_max : teb <= DATA_SIZE_BITS.

(** The two shifts of the inner loop cut window [i - 1] out of the
    time stamp. *)
Lemma shift_pair_window (t : Z) (i : nat) :
  teb * (Z.of_nat i + 1) <= DATA_SIZE_BITS ->
  shr (shl t (DATA_SIZE_BITS - teb * (Z.of_nat i + 1)))
      (DATA_SIZE_BITS - teb) = window teb t i.
Proof using teb_pos teb_max.
  unfold DATA_SIZE_BITS in *. intros Hi.
  unfold shr, shl, wrap, modulus, DATA_SIZE_BITS, window.
  rewrite mask_ones.
  apply Z.bits_inj'; intros n Hn.
  rewrite Z.shiftr_spec, Z.land_spec, Z.shiftr_spec by lia.
  rewrite Z.testbit_ones_nonneg by lia.
  destruct (Z.ltb_spec n teb) as [Hlt | Hge].
  - rewrite Z.mod_pow2_bits_low by lia.
    rewrite Z.shiftl_spec by lia.
    rewrite andb_true_r. f_equal. lia.
  - rewrite Z.mod_pow2_bits_high by lia.
    now rewrite andb_false_r.
Qed.

Lemma window_range (t : Z) (i : nat) : 0 <= window teb t i < 2 ^ teb.
Proof using teb_pos.
  unfold window. rewrite mask_ones, Z.land_ones by lia.
  apply Z.mod_pos_bound. apply Z.pow_pos_nonneg; lia.
Qed.

Lemma xor_all_windows_range (t : Z) (l : list nat) :
  0 <= xor_all (map (window teb t) l) < 2 ^ teb.
Proof using teb_pos.
  induction l as [| i l IH]; simpl.
  - split; [lia | apply Z.pow_pos_nonneg; lia].
  - apply lxor_small; [lia | apply window_range | exact IH].
Qed.

(** The inner loop started at [i = j + 1] XORs windows
    [j, j + 1, ..., j + n - 1] into the accumulator. *)
Lemma fold_inner_windows (n j : nat) (t acc : Z) :
  teb * Z.of_nat (j + n) <= DATA_SIZE_BITS ->
  fold_inner teb n (Z.of_nat j + 1) t acc =
  Z.lxor acc (xor_all (map (window teb t) (seq j n))).
Proof using teb_pos teb_max.
  revert j acc. induction n as [| n IH]; intros j acc Hb; simpl.
  - now rewrite Z.lxor_0_r.
  - rewrite shift_pair_window by nia.
    replace (Z.of_nat j + 1 + 1) with (Z.of_nat (S j) + 1) by lia.
    rewrite IH by (rewrite <- Nat.add_succ_comm in Hb; exact Hb).
    now rewrite Z.lxor_assoc.
Qed.

Lemma fold_pass_spec (t : Z) : fold_pass teb t = fold_spec teb t.
Proof using teb_pos teb_max.
  unfold fold_pass, fold_spec.
  change (fold_inner teb ?n 1 t 0) with (fold_inner teb n (Z.of_nat 0 + 1) t 0).
  rewrite fold_inner_windows.
  - now rewrite Z.lxor_0_l.
  - unfold DATA_SIZE_BITS in *. rewrite Nat.add_0_l, Z2Nat.id.
    + apply Z.mul_div_le. lia.
    + apply Z.div_pos; lia.
Qed.

End Fold.

Lemma fold_pass_range (teb t : Z) :
  1 <= teb <= 64 -> 0 <= fold_pass teb t < 2 ^ teb.
Proof.
  intros [Hlo Hhi].
  rewrite fold_pass_spec by (unfold DATA_SIZE_BITS; lia).
  unfold fold_spec. apply xor_all_windows_range. lia.
Qed.

(** C6.  For every time stamp [t] and every width [teb] of 1 to 64 bits,
    one fold pass yields the XOR of the windows
    [(t >> (teb * i)) & ((1 << teb) - 1)] for [i] from 0 to [64 / teb - 1],
    and the folded value is below [2 ^ teb]. *)
Theorem fold_pass_is_xor_of_windows (teb t : Z) :
  1 <= teb <= 64 ->
  fold_pass teb t = fold_spec teb t /\ 0 <= fold_pass teb t < 2 ^ teb.
Proof.
  intros Hteb. split.
  - apply fold_pass_spec; unfold DATA_SIZE_BITS; lia.
  - now apply fold_pass_range.
Qed.

Lemma fold_pass_is_xor_of_windows_witness :
  1 <= 1 <= 64 /\
  fold_pass 1 0x1234567890abcdef = fold_spec 1 0x1234567890abcdef /\
  0 <= fold_pass 1 0x1234567890abcdef < 2 ^ 1.
Proof.
  split; [lia | apply (fold_pass_is_xor_of_windows 1 0x1234567890abcdef); lia].
Defined.

(** ** The stir step *)

(** Equations between XOR expressions, decided bit by bit. *)
Ltac xor_bits :=
  apply Z.bits_inj'; intros ? ?; rewrite ?Z.lxor_spec, ?Z.bits_0;
  repeat match goal with
         | |- context [Z.testbit ?x ?i] => destruct (Z.testbit x i)
         end;
  reflexivity.

Lemma rol64_range (x n : Z) :
  in_range x -> 0 <= n <= DATA_SIZE_BITS -> in_range (rol64 x n).
Proof.
  unfold in_range, rol64, modulus, DATA_SIZE_BITS. intros Hx Hn.
  apply lor_small; [lia | apply (wrap_range (Z.shiftl x n)) |].
  unfold shr. rewrite Z.shiftr_div_pow2 by lia. split.
  - apply Z.div_pos; [lia | apply Z.pow_pos_nonneg; lia].
  - apply Z.le_lt_trans with x; [| lia].
    apply Z.div_le_upper_bound; [apply Z.pow_pos_nonneg; lia |].
    assert (1 <= 2 ^ (64 - n)) by (apply Z.pow_le_mono_r with (b := 0); lia).
    nia.
Qed.

Lemma rol64_1_bits (x i : Z) :
  in_range x -> 0 <= i ->
  Z.testbit (rol64 x 1) i =
  if i =? 0 then Z.testbit x 63 else (i <? 64) && Z.testbit x (i - 1).
Proof.
  unfold in_range, rol64, shl, shr, wrap, modulus, DATA_SIZE_BITS.
  intros Hx Hi.
  rewrite Z.lor_spec, Z.shiftr_spec by lia.
  destruct (Z.eqb_spec i 0) as [-> | Hne].
  - rewrite Z.mod_pow2_bits_low, Z.shiftl_spec by lia.
    now rewrite Z.testbit_neg_r by lia.
  - rewrite (testbit_small 64 x) by lia. rewrite orb_false_r.
    destruct (Z.ltb_spec i 64) as [Hlt | Hge].
    + now rewrite Z.mod_pow2_bits_low, Z.shiftl_spec by lia.
    + now rewrite Z.mod_pow2_bits_high by lia.
Qed.

Lemma lxor_range (a b : Z) : in_range a -> in_range b -> in_range (Z.lxor a b).
Proof.
  unfold in_range, modulus, DATA_SIZE_BITS. intros Ha Hb.
  apply lxor_small; lia.
Qed.

Lemma rol64_1_lxor (a b : Z) :
  in_range a -> in_range b ->
  rol64 (Z.lxor a b) 1 = Z.lxor (rol64 a 1) (rol64 b 1).
Proof.
  intros Ha Hb. apply Z.bits_inj'; intros i Hi.
  rewrite Z.lxor_spec, !rol64_1_bits by auto using lxor_range.
  rewrite !Z.lxor_spec.
  destruct (i =? 0); [reflexivity |].
  destruct (i <? 64); [reflexivity | now rewrite !andb_false_l].
Qed.

(** The loop of [jent_stir_pool] tests bit [i] of the pool. *)
Lemma pool_bit_test (d i : Z) :
  0 <= i -> (Z.land (shr d i) 1 =? 0) = negb (Z.testbit d i).
Proof.
  intros Hi. unfold shr.
  change 1 with (Z.ones 1) at 1. rewrite Z.land_ones by lia.
  change (2 ^ 1) with 2. rewrite <- Z.bit0_mod, Z.shiftr_spec by lia.
  rewrite Z.add_0_l. now destruct (Z.testbit d i).
Qed.

Lemma stir_constant_range : in_range stir_constant.
Proof. unfold in_range, modulus, DATA_SIZE_BITS. now vm_compute. Qed.

Lemma stir_mixer_range : in_range stir_mixer.
Proof. unfold in_range, modulus, DATA_SIZE_BITS. now vm_compute. Qed.

Lemma stir_loop_range (n : nat) (i d m : Z) :
  in_range m -> in_range (stir_loop n i d m).
Proof.
  revert i m. induction n as [| n IH]; intros i m Hm; simpl; [assumption |].
  apply IH. apply rol64_range; [| unfold DATA_SIZE_BITS; lia].
  destruct (Z.land (shr d i) 1 =? 0);
    auto using lxor_range, stir_constant_range.
Qed.

(** The loop is linear over GF(2) in the pair of pool and mixer. *)
Lemma stir_loop_lxor (n : nat) (i a b m1 m2 : Z) :
  0 <= i -> in_range m1 -> in_range m2 ->
  stir_loop n i (Z.lxor a b) (Z.lxor m1 m2) =
  Z.lxor (stir_loop n i a m1) (stir_loop n i b m2).
Proof.
  revert i m1 m2. induction n as [| n IH]; intros i m1 m2 Hi H1 H2; simpl;
    [reflexivity |].
  rewrite !pool_bit_test, Z.lxor_spec by assumption.
  pose proof stir_constant_range as HC.
  rewrite <- IH by
    (try lia; apply rol64_range; try (unfold DATA_SIZE_BITS; lia);
     destruct (Z.testbit a i), (Z.testbit b i); simpl;
     auto using lxor_range).
  f_equal.
  rewrite <- rol64_1_lxor by
    (destruct (Z.testbit a i), (Z.testbit b i); simpl;
     auto using lxor_range).
  f_equal.
  destruct (Z.testbit a i), (Z.testbit b i); simpl; xor_bits.
Qed.

Lemma stir_value_affine (d : Z) :
  stir_value d = Z.lxor (stir_linear d) stir_mixer.
Proof.
  unfold stir_value, stir_linear.
  assert (H0 : in_range 0) by (unfold in_range, modulus, DATA_SIZE_BITS; lia).
  pose proof (stir_loop_lxor (Z.to_nat DATA_SIZE_BITS) 0 d 0 0 stir_mixer
                (Z.le_refl 0) H0 stir_mixer_range) as Hsplit.
  rewrite Z.lxor_0_r, Z.lxor_0_l in Hsplit. rewrite Hsplit.
  replace (stir_loop (Z.to_nat DATA_SIZE_BITS) 0 0 stir_mixer)
    with stir_mixer by now vm_compute.
  now rewrite Z.lxor_assoc.
Qed.

Lemma stir_linear_lxor (a b : Z) :
  stir_linear (Z.lxor a b) = Z.lxor (stir_linear a) (stir_linear b).
Proof.
  unfold stir_linear.
  assert (H0 : in_range 0) by (unfold in_range, modulus, DATA_SIZE_BITS; lia).
  pose proof (stir_loop_lxor (Z.to_nat DATA_SIZE_BITS) 0 a b 0 0
                (Z.le_refl 0) H0 H0) as Hsplit.
  rewrite Z.lxor_0_l in Hsplit. rewrite Hsplit.
  xor_bits.
Qed.

Lemma lin_lxor (cols : list Z) (i x y : Z) :
  lin cols i (Z.lxor x y) = Z.lxor (lin cols i x) (lin cols i y).
Proof.
  revert i. induction cols as [| col cols IH]; intros i; simpl;
    [reflexivity |].
  rewrite IH, Z.lxor_spec.
  destruct (Z.testbit x i), (Z.testbit y i); simpl; xor_bits.
Qed.

(** [unstir] after the linear part of the stir step, as one map. *)
Lemma unstir_after_stir (d : Z) :
  unstir (stir_value d) = lin unstir_cols 0 (stir_linear d).
Proof.
  unfold unstir. rewrite stir_value_affine. f_equal. xor_bits.
Qed.

Lemma unstir_linear_unit_vectors :
  forallb (fun j => lin unstir_cols 0 (stir_linear (2 ^ Z.of_nat j))
                    =? 2 ^ Z.of_nat j) (seq 0 64) = true.
Proof. now vm_compute. Qed.

Lemma split_top_bit (n d : Z) :
  0 <= n -> 0 <= d < 2 ^ (n + 1) ->
  d = Z.lxor (d mod 2 ^ n) (if Z.testbit d n then 2 ^ n else 0).
Proof.
  intros Hn Hd. apply Z.bits_inj'; intros i Hi.
  rewrite Z.lxor_spec.
  assert (Htop : Z.testbit (if Z.testbit d n then 2 ^ n else 0) i
                 = (i =? n) && Z.testbit d n).
  { destruct (Z.testbit d n).
    - rewrite Z.pow2_bits_eqb by lia. rewrite Z.eqb_sym. now rewrite andb_true_r.
    - now rewrite Z.bits_0, andb_false_r. }
  rewrite Htop.
  destruct (Z.lt_total i n) as [Hlt | [-> | Hgt]].
  - rewrite Z.mod_pow2_bits_low by lia.
    replace (i =? n) with false by (symmetry; apply Z.eqb_neq; lia).
    now rewrite xorb_false_r.
  - rewrite Z.mod_pow2_bits_high by lia. rewrite Z.eqb_refl. reflexivity.
  - rewrite Z.mod_pow2_bits_high by lia.
    replace (i =? n) with false by (symmetry; apply Z.eqb_neq; lia).
    apply (testbit_small (n + 1)); lia.
Qed.

Lemma unstir_linear_below (n : nat) (d : Z) :
  (n <= 64)%nat -> 0 <= d < 2 ^ Z.of_nat n ->
  lin unstir_cols 0 (stir_linear d) = d.
Proof.
  revert d. induction n as [| n IH]; intros d Hn Hd.
  - assert (d = 0) by (simpl in Hd; lia). subst d. now vm_compute.
  - rewrite (split_top_bit (Z.of_nat n) d) at 1 by lia.
    rewrite stir_linear_lxor, lin_lxor.
    rewrite IH by (try lia; apply Z.mod_pos_bound; apply Z.pow_pos_nonneg; lia).
    rewrite (split_top_bit (Z.of_nat n) d) at 3 by lia.
    f_equal.
    destruct (Z.testbit d (Z.of_nat n)); [| now vm_compute].
    pose proof unstir_linear_unit_vectors as Hall.
    rewrite forallb_forall in Hall.
    apply Z.eqb_eq, Hall, in_seq. lia.
Qed.

(** The stir step can be undone: it is one-to-one on 64-bit pools. *)
Lemma unstir_stir (d : Z) : in_range d -> unstir (stir_value d) = d.
Proof.
  intros Hd. rewrite unstir_after_stir.
  apply (unstir_linear_below 64); [lia | exact Hd].
Qed.

(** C7, as stated, fails: the pool value [0x88aaccee00224466] is not
    zero and the stir step turns it into zero. *)
Lemma stir_zeroes_a_nonzero_pool :
  in_range stir_zero_point /\ stir_zero_point <> 0 /\
  data (jent_stir_pool (collector stir_zero_point 0 false true false)) = 0.
Proof.
  unfold in_range, modulus, DATA_SIZE_BITS.
  repeat split; now vm_compute.
Qed.

(** C7, amended.  With the constants laid out as on a little endian
    machine: for every 64-bit pool value other than
    [0x88aaccee00224466], and so for every non-zero one but that, the
    stir step leaves a non-zero pool. *)
Theorem stir_pool_nonzero_except_one (c : rand_data) :
  in_range (data c) -> data c <> stir_zero_point ->
  data (jent_stir_pool c) <> 0.
Proof.
  intros Hrange Hne Hzero. apply Hne.
  rewrite <- (unstir_stir (data c)) by assumption.
  unfold jent_stir_pool, set_data in Hzero. cbn [data] in Hzero.
  rewrite Hzero. now vm_compute.
Qed.

Lemma stir_pool_nonzero_except_one_witness :
  data (jent_stir_pool (collector 1 0 false true false)) <> 0.
Proof.
  apply (stir_pool_nonzero_except_one (collector 1 0 false true false)).
  - unfold in_range, modulus, DATA_SIZE_BITS. simpl. lia.
  - now vm_compute.
Defined.

(** ** Jitter measurements *)


Lemma fold_outer_cases (teb : Z) (n : nat) (t acc : Z) :
  fold_outer teb n t acc = acc \/ fold_outer teb n t acc = fold_pass teb t.
Proof.
  revert acc. induction n as [| n IH]; intros acc; simpl; [now left |].
  destruct (IH (fold_pass teb t)) as [-> | ->]; now right.
Qed.


Lemma memaccess_frame (c : rand_data) :
  data (jent_memaccess c) = data c /\ same_settings c (jent_memaccess c).
Proof.
  unfold jent_memaccess, same_settings.
  destruct (mem c) as [m |]; [| tauto].
  destruct (Nat.iter _ _ _) as [m' loc']. unfold set_mem. cbn. tauto.
Qed.

Lemma memaccess_prev_time (c : rand_data) :
  prev_time (jent_memaccess c) = prev_time c.
Proof.
  unfold jent_memaccess.
  destruct (mem c) as [m |]; [| reflexivity].
  now destruct (Nat.iter _ _ _) as [m' loc'].
Qed.

(** The collector and the platform after one jitter measurement. *)
Lemma measure_jitter_state (teb : Z) (c : rand_data) (w : World) :
  snd (fst (jent_measure_jitter teb c w)) =
    set_prev_time (jent_memaccess c) (wrap (timer w (ticks w))) /\
  snd (jent_measure_jitter teb c w) =
    mk_World (timer w) (S (S (ticks w))) (fips_mode w) (S (measured w)).
Proof. split; reflexivity. Qed.

(** What one jitter measurement touches: the time stamp and the memory
    walk of the collector, two readings of the timer, and the count of
    measurements. *)
Lemma measure_jitter_frame (teb : Z) (c : rand_data) (w : World) :
  forall x c' w', jent_measure_jitter teb c w = (x, c', w') ->
  data c' = data c /\ same_settings c c' /\ same_platform w w' /\
  measured w' = S (measured w) /\ ticks w' = S (S (ticks w)) /\
  prev_time c' = wrap (timer w (ticks w)).
Proof.
  intros x c' w' E.
  destruct (measure_jitter_state teb c w) as [Hc Hw].
  rewrite E in Hc, Hw. cbn [fst snd] in Hc, Hw. subst c' w'.
  destruct (memaccess_frame c) as [Hd Hs].
  unfold same_settings, same_platform, set_prev_time in *. cbn.
  tauto.
Qed.

Lemma measure_jitter_range (teb : Z) (c : rand_data) (w : World) :
  1 <= teb <= 64 ->
  forall x c' w', jent_measure_jitter teb c w = (x, c', w') ->
  0 <= x < 2 ^ teb.
Proof.
  intros Hteb x c' w'.
  unfold jent_measure_jitter, jent_fold_time.
  destruct (jent_get_nstime w) as [time w1].
  destruct (jent_loop_shuffle _ _ _ _) as [shuffled w2].
  intros [= <- _ _].
  match goal with
  | |- context [fold_outer teb ?n ?t 0] =>
      destruct (fold_outer_cases teb n t 0) as [-> | ->]
  end.
  - split; [lia | apply Z.pow_pos_nonneg; lia].
  - now apply fold_pass_range.
Qed.

Lemma same_settings_refl (c : rand_data) : same_settings c c.
Proof. unfold same_settings. tauto. Qed.

Lemma same_settings_trans (c1 c2 c3 : rand_data) :
  same_settings c1 c2 -> same_settings c2 c3 -> same_settings c1 c3.
Proof. unfold same_settings. intuition congruence. Qed.

Lemma same_platform_refl (w : World) : same_platform w w.
Proof. unfold same_platform. tauto. Qed.

Lemma same_platform_trans (w1 w2 w3 : World) :
  same_platform w1 w2 -> same_platform w2 w3 -> same_platform w1 w3.
Proof. unfold same_platform. intuition congruence. Qed.

Lemma same_settings_set_data (c : rand_data) (v : Z) :
  same_settings c (set_data c v).
Proof. unfold same_settings. simpl. tauto. Qed.

Create HintDb frame.

#[local] Hint Resolve same_settings_refl same_platform_refl
  same_settings_set_data : frame.

(** ** The von-Neumann unbiaser *)

Section Unbiaser.

Variable teb : Z.

Lemma draw_pair_frame (c : rand_data) (w : World) :
  forall a b c' w', draw_pair teb c w = (a, b, c', w') ->
  data c' = data c /\ same_settings c c' /\ same_platform w w' /\
  measured w' = S (S (measured w)).
Proof.
  intros a b c' w'. unfold draw_pair.
  destruct (jent_measure_jitter teb c w) as [[a1 c1] w1] eqn:E1.
  destruct (jent_measure_jitter teb c1 w1) as [[b2 c2] w2] eqn:E2.
  intros [= <- <- <- <-].
  apply measure_jitter_frame in E1 as (D1 & S1 & P1 & M1 & _).
  apply measure_jitter_frame in E2 as (D2 & S2 & P2 & M2 & _).
  unfold same_settings, same_platform in *.
  intuition (try congruence; lia).
Qed.


(** One turn of the [do ... while (1)] loop. *)
Lemma unbias_loop_step (fuel : nat) (c : rand_data) (w : World) :
  unbias_loop teb (S fuel) c w =
  let '(a, b, c2, w2) := draw_pair teb c w in
  if a =? b then unbias_loop teb fuel c2 w2
  else Some (if 1 =? a then 1 else 0, c2, w2).
Proof.
  unfold draw_pair. cbn [unbias_loop].
  destruct (jent_measure_jitter teb c w) as [[a c1] w1].
  destruct (jent_measure_jitter teb c1 w1) as [[b c2] w2].
  destruct (a =? b); [reflexivity |]. now destruct (1 =? a).
Qed.




End Unbiaser.

(** *** The shuffler and the number of fold passes *)

Lemma shuffle_loop_range (n : nat) (bits time acc : Z) :
  0 <= bits -> 0 <= acc < 2 ^ bits ->
  0 <= shuffle_loop n bits (Z.ones bits) time acc < 2 ^ bits.
Proof.
  intros Hbits. revert time acc.
  induction n as [| n IH]; intros time acc Hacc; simpl; [assumption |].
  apply IH. apply lxor_small; [lia | assumption |].
  rewrite Z.land_ones by lia.
  apply Z.mod_pos_bound. apply Z.pow_pos_nonneg; lia.
Qed.

(** The shuffler stays in [[2 ^ min, 2 ^ min + 2 ^ bits)]. *)
Lemma jent_loop_shuffle_range (ec : option rand_data) (bits min : Z)
    (w : World) :
  0 <= bits <= 32 -> 0 <= min <= 62 ->
  2 ^ min <= fst (jent_loop_shuffle ec bits min w) < 2 ^ min + 2 ^ bits.
Proof.
  intros Hbits Hmin. unfold jent_loop_shuffle, jent_get_nstime.
  cbn [fst]. rewrite mask_ones.
  assert (Hpow : 0 < 2 ^ bits <= 2 ^ 32)
    by (split; [apply Z.pow_pos_nonneg; lia | apply Z.pow_le_mono_r; lia]).
  assert (Hmask : U32.wrap (Z.ones bits) = Z.ones bits).
  { unfold U32.wrap, U32.modulus. apply Z.mod_small.
    rewrite Z.ones_equiv. lia. }
  rewrite Hmask, Z.shiftl_1_l.
  match goal with
  | |- context [shuffle_loop ?n bits _ ?t 0] =>
      pose proof (shuffle_loop_range n bits t 0 (proj1 Hbits)
                    (conj (Z.le_refl 0) (proj1 Hpow))) as Hs;
      set (sh := shuffle_loop n bits (Z.ones bits) t 0) in *
  end.
  assert (Hm : 0 < 2 ^ min <= 2 ^ 62)
    by (split; [apply Z.pow_pos_nonneg; lia | apply Z.pow_le_mono_r; lia]).
  rewrite wrap_small; [lia |].
  unfold in_range, modulus, DATA_SIZE_BITS.
  change (2 ^ 62) with 4611686018427387904 in Hm.
  change (2 ^ 32) with 4294967296 in Hpow.
  change (2 ^ 64) with 18446744073709551616. lia.
Qed.

(** The fold emits the result of one pass whenever it runs at least
    one, and with no loop count handed in it always does. *)
Lemma fold_outer_pass (teb : Z) (n : nat) (t acc : Z) :
  (0 < n)%nat -> fold_outer teb n t acc = fold_pass teb t.
Proof.
  intros Hn. destruct n as [| n]; [lia |]. clear Hn. revert acc.
  induction n as [| n IH]; intros acc; [reflexivity |].
  change (fold_outer teb (S (S n)) t acc)
    with (fold_outer teb (S n) t (fold_pass teb t)).
  apply IH.
Qed.

Lemma jent_fold_time_folded (teb : Z) (ec : option rand_data) (t : Z)
    (w : World) :
  fst (fst (jent_fold_time teb ec t 0 w)) = fold_pass teb t.
Proof.
  unfold jent_fold_time.
  pose proof (jent_loop_shuffle_range ec MAX_FOLD_LOOP_BIT
                MIN_FOLD_LOOP_BIT w) as H.
  destruct (jent_loop_shuffle ec MAX_FOLD_LOOP_BIT MIN_FOLD_LOOP_BIT w)
    as [shuffled w1].
  cbn [fst snd Z.eqb] in *. unfold MAX_FOLD_LOOP_BIT, MIN_FOLD_LOOP_BIT in H.
  change (2 ^ 0) with 1 in H. apply fold_outer_pass. lia.
Qed.

(** With no loop count handed in, the fold runs 1 to 16 passes. *)
Lemma fold_loop_count_range (teb : Z) (ec : option rand_data) (t : Z)
    (w : World) :
  1 <= snd (fst (jent_fold_time teb ec t 0 w)) <= 16.
Proof.
  unfold jent_fold_time.
  pose proof (jent_loop_shuffle_range ec MAX_FOLD_LOOP_BIT
                MIN_FOLD_LOOP_BIT w) as H.
  destruct (jent_loop_shuffle ec MAX_FOLD_LOOP_BIT MIN_FOLD_LOOP_BIT w)
    as [shuffled w1].
  cbn [fst snd Z.eqb] in *. unfold MAX_FOLD_LOOP_BIT, MIN_FOLD_LOOP_BIT in H.
  change (2 ^ 0) with 1 in H. change (2 ^ 4) with 16 in H. lia.
Qed.

(** *** A timer that does not move *)



(** *** A timer that steps by one *)







Lemma draw_pair_range (teb : Z) (c : rand_data) (w : World) :
  1 <= teb <= 64 ->
  forall a b c' w', draw_pair teb c w = (a, b, c', w') ->
  0 <= a < 2 ^ teb /\ 0 <= b < 2 ^ teb.
Proof.
  intros Hteb a b c' w'. unfold draw_pair.
  destruct (jent_measure_jitter teb c w) as [[a1 c1] w1] eqn:E1.
  destruct (jent_measure_jitter teb c1 w1) as [[b2 c2] w2] eqn:E2.
  intros [= <- <- _ _].
  eauto using measure_jitter_range.
Qed.

(** C5, as stated, fails: with two time entropy bits the samples 2 and 1
    form a pair that differs, and the unbiaser hands back 0, not the
    first sample 2. *)
Lemma unbiaser_drops_a_two_bit_sample :
  exists c2 w2,
    draw_pair 2 (collector 0 0 false true false)
      (boot two_then_one_timer false) = (2, 1, c2, w2) /\
    jent_unbiased_bit 2 1 (collector 0 0 false true false)
      (boot two_then_one_timer false) = Some (0, c2, w2).
Proof.
  do 2 eexists. split; vm_compute; reflexivity.
Qed.

(** C5, amended.  With unbiasing enabled, when the pair of samples [a],
    [b] drawn next differs, the unbiaser returns one bit: 1 if [a] is 1
    and 0 otherwise.  That bit is [a] itself when there is one time
    entropy bit. *)
Theorem unbiaser_returns_one_bit
    (teb : Z) (fuel : nat) (c : rand_data) (w : World)
    (a b : Z) (c2 : rand_data) (w2 : World) :
  disable_unbias c = false ->
  draw_pair teb c w = (a, b, c2, w2) ->
  a <> b ->
  jent_unbiased_bit teb (S fuel) c w
    = Some (if 1 =? a then 1 else 0, c2, w2) /\
  (teb = 1 -> jent_unbiased_bit teb (S fuel) c w = Some (a, c2, w2)).
Proof.
  intros Hunbias E Hab.
  assert (Hret : jent_unbiased_bit teb (S fuel) c w
                 = Some (if 1 =? a then 1 else 0, c2, w2)).
  { unfold jent_unbiased_bit. rewrite Hunbias, unbias_loop_step, E.
    apply Z.eqb_neq in Hab. now rewrite Hab. }
  split; [exact Hret |].
  intros ->. rewrite Hret.
  apply draw_pair_range in E as [Ha _]; [| lia].
  change (2 ^ 1) with 2 in Ha.
  assert (Hcases : a = 0 \/ a = 1) by lia.
  now destruct Hcases as [-> | ->].
Qed.

Lemma unbiaser_returns_one_bit_witness :
  exists c2 w2,
    jent_unbiased_bit 1 1 (collector 0 0 false true false)
      (boot steady_timer false) = Some (0, c2, w2).
Proof.
  do 2 eexists.
  refine (proj2 (unbiaser_returns_one_bit 1 0
                   (collector 0 0 false true false)
                   (boot steady_timer false) 0 1 _ _ _ _ _) _).
  - reflexivity.
  - vm_compute. reflexivity.
  - discriminate.
  - reflexivity.
Defined.

(** ** The generation pass *)

Section Generation.

Variable teb : Z.
Variable wide : bool.

Lemma unbias_loop_frame (fuel : nat) :
  forall c w x c' w', unbias_loop teb fuel c w = Some (x, c', w') ->
  data c' = data c /\ same_settings c c' /\ same_platform w w'.
Proof.
  induction fuel as [| fuel IH]; intros c w x c' w'; [discriminate |].
  rewrite unbias_loop_step.
  destruct (draw_pair teb c w) as [[[a b] c2] w2] eqn:E.
  apply draw_pair_frame in E as (D1 & S1 & P1 & _).
  destruct (a =? b).
  - intros Hrest. apply IH in Hrest as (D2 & S2 & P2).
    split; [congruence |].
    split; [eapply same_settings_trans | eapply same_platform_trans];
      eassumption.
  - intros [= _ <- <-]. auto.
Qed.

Lemma unbiased_bit_frame (fuel : nat) (c : rand_data) (w : World) :
  forall x c' w', jent_unbiased_bit teb fuel c w = Some (x, c', w') ->
  data c' = data c /\ same_settings c c' /\ same_platform w w'.
Proof.
  intros x c' w'. unfold jent_unbiased_bit.
  destruct (disable_unbias c).
  - destruct (jent_measure_jitter teb c w) as [[x1 c1] w1] eqn:E.
    intros [= <- <- <-]. apply measure_jitter_frame in E. tauto.
  - apply unbias_loop_frame.
Qed.

(** The loop of [jent_gen_entropy]: at its end, cut off, and one
    round of it. *)
Lemma gen_loop_done (n : nat) (k : Z) (fuel : nat) (c : rand_data)
    (w : World) :
  gen_rounds teb wide c <= k ->
  gen_loop teb wide n k fuel c w = Some (tt, c, w).
Proof.
  intros Hk.
  assert (Hguard : (k <? gen_rounds teb wide c) = false)
    by (apply Z.ltb_ge; lia).
  destruct n; cbn [gen_loop]; unfold bind, get; now rewrite Hguard.
Qed.

Lemma gen_loop_cut (k : Z) (fuel : nat) (c : rand_data) (w : World) :
  k < gen_rounds teb wide c -> gen_loop teb wide 0 k fuel c w = None.
Proof.
  intros Hk.
  assert (Hguard : (k <? gen_rounds teb wide c) = true)
    by (apply Z.ltb_lt; lia).
  cbn [gen_loop]. unfold bind, get. now rewrite Hguard.
Qed.

Lemma gen_loop_step (n : nat) (k : Z) (fuel : nat) (c : rand_data)
    (w : World) :
  k < gen_rounds teb wide c ->
  gen_loop teb wide (S n) k fuel c w =
  let '(c1, w1) :=
    if k =? 0
    then (snd (fst (jent_measure_jitter teb c w)),
          snd (jent_measure_jitter teb c w))
    else (c, w) in
  match jent_unbiased_bit teb fuel c1 w1 with
  | None => None
  | Some (bit, c2, w2) =>
      gen_loop teb wide n (U32.wrap (k + 1)) fuel
        (set_data c2 (rol64 (Z.lxor (data c2) bit) teb)) w2
  end.
Proof.
  intros Hk.
  assert (Hguard : (k <? gen_rounds teb wide c) = true)
    by (apply Z.ltb_lt; lia).
  cbn [gen_loop]. unfold bind at 1. unfold get at 1. rewrite Hguard.
  unfold bind, ret, total, modify.
  destruct (k =? 0).
  - destruct (jent_measure_jitter teb c w) as [[x c1] w1]. cbn [fst snd].
    destruct (jent_unbiased_bit teb fuel c1 w1) as [[[bit c2] w2] |];
      reflexivity.
  - destruct (jent_unbiased_bit teb fuel c w) as [[[bit c2] w2] |];
      reflexivity.
Qed.

(** The measurement that primes [prev_time] when the counter is 0. *)
Lemma gen_loop_priming (k : Z) (c : rand_data) (w : World) :
  forall c1 w1,
    (c1, w1) = (if k =? 0
                then (snd (fst (jent_measure_jitter teb c w)),
                      snd (jent_measure_jitter teb c w))
                else (c, w)) ->
    data c1 = data c /\ same_settings c c1 /\ same_platform w w1 /\
    measured w1 = (measured w + (if (k =? 0)%Z then 1 else 0))%nat.
Proof.
  intros c1 w1. destruct (k =? 0).
  - destruct (jent_measure_jitter teb c w) as [[x cm] wm] eqn:E.
    cbn [fst snd]. intros [= -> ->].
    apply measure_jitter_frame in E as (D & S1 & P1 & M & _).
    repeat split; try tauto; try apply S1; try apply P1. lia.
  - intros [= -> ->]. split; [reflexivity |].
    split; [auto with frame |]. split; [auto with frame | lia].
Qed.

Lemma gen_rounds_settings (c c' : rand_data) :
  same_settings c c' -> gen_rounds teb wide c' = gen_rounds teb wide c.
Proof.
  intros (_ & _ & Ho & _). unfold gen_rounds. now rewrite Ho.
Qed.

Lemma gen_loop_frame (fuel n : nat) :
  forall k c w u c' w', gen_loop teb wide n k fuel c w = Some (u, c', w') ->
  same_settings c c' /\ same_platform w w'.
Proof.
  induction n as [| n IH]; intros k c w u c' w';
    destruct (Z.lt_ge_cases k (gen_rounds teb wide c)) as [Hk | Hk].
  - now rewrite gen_loop_cut.
  - rewrite gen_loop_done by assumption. intros [= _ <- <-].
    auto with frame.
  - rewrite gen_loop_step by assumption.
    pose proof (gen_loop_priming k c w) as Hpre.
    destruct (if k =? 0 then _ else _) as [c1 w1].
    destruct (Hpre c1 w1 eq_refl) as (_ & S1 & P1 & _).
    destruct (jent_unbiased_bit teb fuel c1 w1) as [[[bit c2] w2] |] eqn:E;
      [| discriminate].
    apply unbiased_bit_frame in E as (_ & S2 & P2).
    intros Hrest. apply IH in Hrest as [S3 P3].
    split.
    + eapply same_settings_trans; [exact S1 |].
      eapply same_settings_trans; [exact S2 |].
      eapply same_settings_trans; [apply same_settings_set_data | exact S3].
    + eauto using same_platform_trans.
  - rewrite gen_loop_done by assumption. intros [= _ <- <-].
    auto with frame.
Qed.

(** A bound within the counter is reached after as many rounds as it
    says, and further rounds change nothing: a pass with such a bound
    is never cut off for the number of its rounds. *)
Lemma gen_loop_enough (fuel n m : nat) :
  forall k c w, 0 <= k ->
  k + Z.of_nat n = gen_rounds teb wide c ->
  gen_rounds teb wide c < U32.modulus ->
  gen_loop teb wide (n + m) k fuel c w = gen_loop teb wide n k fuel c w.
Proof.
  induction n as [| n IH]; intros k c w Hk Hn Hbound.
  - now rewrite !gen_loop_done by lia.
  - change (S n + m)%nat with (S (n + m)).
    rewrite !gen_loop_step by lia.
    pose proof (gen_loop_priming k c w) as Hpre.
    destruct (if k =? 0 then _ else _) as [c1 w1].
    destruct (Hpre c1 w1 eq_refl) as (_ & S1 & _).
    destruct (jent_unbiased_bit teb fuel c1 w1) as [[[bit c2] w2] |] eqn:E;
      [| reflexivity].
    apply unbiased_bit_frame in E as (_ & S2 & _).
    assert (S3 : same_settings c
                   (set_data c2 (rol64 (Z.lxor (data c2) bit) teb))).
    { eapply same_settings_trans; [exact S1 |].
      eapply same_settings_trans; [exact S2 |].
      apply same_settings_set_data. }
    assert (Hwrap : U32.wrap (k + 1) = k + 1)
      by (unfold U32.wrap; apply Z.mod_small; lia).
    rewrite Hwrap.
    apply IH; rewrite ?(gen_rounds_settings c) by exact S3; lia.
Qed.

(** [jent_gen_entropy] as its loop followed by the optional stir. *)
Lemma gen_entropy_unfold (fuel : nat) (c : rand_data) (w : World) :
  jent_gen_entropy teb wide fuel c w =
  match gen_loop teb wide (Z.to_nat (gen_rounds teb wide c)) 0 fuel c w with
  | None => None
  | Some (_, c', w') =>
      Some (tt, if stir c' then jent_stir_pool c' else c', w')
  end.
Proof.
  unfold jent_gen_entropy, bind, get, ret, modify.
  destruct (gen_loop _ _ _ _ _ _ _) as [[[u c'] w'] |]; [| reflexivity].
  now destruct (stir c').
Qed.

(** A generation pass leaves the FIPS state, the settings and the
    platform alone. *)
Lemma gen_entropy_frame (fuel : nat) (c : rand_data) (w : World) :
  forall u c' w', jent_gen_entropy teb wide fuel c w = Some (u, c', w') ->
  same_settings c c' /\ same_platform w w'.
Proof.
  intros u c' w'. rewrite gen_entropy_unfold.
  destruct (gen_loop _ _ _ _ _ _ _) as [[[u1 c1] w1] |] eqn:E;
    [| discriminate].
  apply gen_loop_frame in E as [S1 P1].
  intros [= _ <- <-]. split; [| exact P1].
  destruct (stir c1); [| exact S1].
  eapply same_settings_trans; [exact S1 |].
  unfold jent_stir_pool. apply same_settings_set_data.
Qed.

(** A bound of [2 ^ 32] or more is beyond the counter: the loop does
    not return, however many rounds it is given. *)
Lemma gen_loop_beyond_counter (fuel n : nat) :
  forall k c w, 0 <= k < U32.modulus ->
  U32.modulus <= gen_rounds teb wide c ->
  gen_loop teb wide n k fuel c w = None.
Proof.
  induction n as [| n IH]; intros k c w Hk Hbound.
  - apply gen_loop_cut. lia.
  - rewrite gen_loop_step by lia.
    pose proof (gen_loop_priming k c w) as Hpre.
    destruct (if k =? 0 then _ else _) as [c1 w1].
    destruct (Hpre c1 w1 eq_refl) as (_ & S1 & _).
    destruct (jent_unbiased_bit teb fuel c1 w1) as [[[bit c2] w2] |] eqn:E;
      [| reflexivity].
    apply unbiased_bit_frame in E as (_ & S2 & _).
    apply IH.
    + unfold U32.wrap. apply Z.mod_pos_bound. reflexivity.
    + rewrite (gen_rounds_settings c); [exact Hbound |].
      eapply same_settings_trans; [exact S1 |].
      eapply same_settings_trans; [exact S2 |].
      apply same_settings_set_data.
Qed.

Lemma gen_entropy_beyond_counter (fuel : nat) (c : rand_data) (w : World) :
  U32.modulus <= gen_rounds teb wide c ->
  jent_gen_entropy teb wide fuel c w = None.
Proof.
  intros Hbound. rewrite gen_entropy_unfold.
  rewrite gen_loop_beyond_counter; [reflexivity | | exact Hbound].
  unfold U32.modulus. lia.
Qed.

(** Without the unbiaser a round is one measurement, and the first
    round has the priming measurement on top. *)
Lemma gen_loop_no_unbias (fuel n : nat) :
  forall k c w, 0 <= k ->
  k + Z.of_nat n = gen_rounds teb wide c ->
  gen_rounds teb wide c < U32.modulus ->
  disable_unbias c = true ->
  exists c' w',
    gen_loop teb wide n k fuel c w = Some (tt, c', w') /\
    measured w' =
      (measured w + n
       + (if (k =? 0)%Z && negb (Nat.eqb n 0) then 1 else 0))%nat.
Proof.
  induction n as [| n IH]; intros k c w Hk Hn Hbound Hdis.
  - exists c, w. split; [apply gen_loop_done; lia |].
    rewrite andb_false_r. lia.
  - rewrite gen_loop_step by lia.
    pose proof (gen_loop_priming k c w) as Hpre.
    destruct (if k =? 0 then _ else _) as [c1 w1].
    destruct (Hpre c1 w1 eq_refl) as (_ & S1 & _ & Hm1).
    assert (Hd1 : disable_unbias c1 = true)
      by (destruct S1 as (_ & _ & _ & _ & ->); exact Hdis).
    unfold jent_unbiased_bit. rewrite Hd1.
    destruct (jent_measure_jitter teb c1 w1) as [[bit c2] w2] eqn:E.
    apply measure_jitter_frame in E as (_ & S2 & _ & Hm2 & _).
    assert (S3 : same_settings c
                   (set_data c2 (rol64 (Z.lxor (data c2) bit) teb))).
    { eapply same_settings_trans; [exact S1 |].
      eapply same_settings_trans; [exact S2 |].
      apply same_settings_set_data. }
    assert (Hwrap : U32.wrap (k + 1) = k + 1)
      by (unfold U32.wrap; apply Z.mod_small; lia).
    rewrite Hwrap.
    destruct (IH (k + 1)
                (set_data c2 (rol64 (Z.lxor (data c2) bit) teb)) w2)
      as (c' & w' & Hrun & Hm').
    + lia.
    + rewrite (gen_rounds_settings c) by exact S3. lia.
    + now rewrite (gen_rounds_settings c) by exact S3.
    + destruct S3 as (_ & _ & _ & _ & ->). exact Hdis.
    + exists c', w'. split; [exact Hrun |].
      rewrite Hm', Hm2, Hm1.
      replace (k + 1 =? 0) with false by (symmetry; apply Z.eqb_neq; lia).
      cbn [andb negb Nat.eqb]. rewrite andb_true_r. lia.
Qed.

(** The number of rounds when the bound fits the counter. *)
Lemma gen_rounds_ceil (c : rand_data) :
  1 <= teb -> 0 <= osr c -> osr c * ceil_div 64 teb < U32.modulus ->
  gen_rounds teb wide c = ceil_div 64 teb * osr c.
Proof.
  intros Hteb Hosr Hfit.
  assert (Hceil : (DATA_SIZE_BITS - 1) / teb + 1 = ceil_div 64 teb).
  { unfold ceil_div, DATA_SIZE_BITS.
    replace (64 + teb - 1) with (63 + 1 * teb) by lia.
    rewrite Z.div_add by lia. reflexivity. }
  assert (Hpos : 0 <= ceil_div 64 teb).
  { rewrite <- Hceil. unfold DATA_SIZE_BITS.
    assert (0 <= (64 - 1) / teb) by (apply Z.div_pos; lia). lia. }
  unfold gen_rounds. cbv zeta. rewrite Hceil.
  unfold U32.modulus in Hfit.
  destruct wide; unfold wrap, modulus, DATA_SIZE_BITS, U32.wrap, U32.modulus;
    apply Z.mod_small; nia.
Qed.

Lemma gen_rounds_pos (c : rand_data) :
  1 <= teb -> 1 <= osr c -> osr c * ceil_div 64 teb < U32.modulus ->
  1 <= gen_rounds teb wide c.
Proof.
  intros Hteb Hosr Hfit. rewrite gen_rounds_ceil by (assumption || lia).
  assert (1 <= ceil_div 64 teb).
  { unfold ceil_div. apply Z.div_le_lower_bound; lia. }
  nia.
Qed.

(** A generation pass without the unbiaser returns when the bound fits
    the counter, after [osr * ceil (64 / teb)] measurements and the
    priming one. *)
Lemma gen_entropy_no_unbias (fuel : nat) (c : rand_data) (w : World) :
  1 <= teb -> 1 <= osr c -> osr c * ceil_div 64 teb < U32.modulus ->
  disable_unbias c = true ->
  exists c' w',
    jent_gen_entropy teb wide fuel c w = Some (tt, c', w') /\
    Z.of_nat (measured w')
    = Z.of_nat (measured w) + (osr c * ceil_div 64 teb + 1).
Proof.
  intros Hteb Hosr Hfit Hdis. rewrite gen_entropy_unfold.
  pose proof (gen_rounds_pos c Hteb Hosr Hfit) as Hpos.
  pose proof (gen_rounds_ceil c Hteb ltac:(lia) Hfit) as Hceil.
  destruct (gen_loop_no_unbias fuel (Z.to_nat (gen_rounds teb wide c)) 0 c w)
    as (c' & w' & Hrun & Hm); [lia | lia | lia | assumption |].
  rewrite Hrun. do 2 eexists. split; [reflexivity |].
  rewrite Hm, <- (Z.mul_comm (ceil_div 64 teb)), <- Hceil.
  cbn [Z.eqb andb].
  destruct (Z.to_nat (gen_rounds teb wide c)) as [| r] eqn:Er; [lia |].
  cbn [Nat.eqb negb]. lia.
Qed.

(** Every round takes at least one measurement, and the first round
    has the priming one on top. *)
Lemma unbias_loop_measured (fuel : nat) :
  forall c w x c' w', unbias_loop teb fuel c w = Some (x, c', w') ->
  (measured w + 2 <= measured w')%nat.
Proof.
  induction fuel as [| fuel IH]; intros c w x c' w'; [discriminate |].
  rewrite unbias_loop_step.
  destruct (draw_pair teb c w) as [[[a b] c2] w2] eqn:E.
  apply draw_pair_frame in E as (_ & _ & _ & M).
  destruct (a =? b).
  - intros Hrest. apply IH in Hrest. lia.
  - intros [= _ _ <-]. lia.
Qed.

Lemma unbiased_bit_measured (fuel : nat) (c : rand_data) (w : World) :
  forall x c' w', jent_unbiased_bit teb fuel c w = Some (x, c', w') ->
  Z.of_nat (measured w) + round_samples c <= Z.of_nat (measured w').
Proof.
  intros x c' w'. unfold jent_unbiased_bit, round_samples.
  destruct (disable_unbias c).
  - destruct (jent_measure_jitter teb c w) as [[x1 c1] w1] eqn:E.
    intros [= _ _ <-].
    apply measure_jitter_frame in E as (_ & _ & _ & M & _). lia.
  - intros E. apply unbias_loop_measured in E. lia.
Qed.

Lemma round_samples_settings (c c' : rand_data) :
  same_settings c c' -> round_samples c' = round_samples c.
Proof.
  intros (_ & _ & _ & _ & Hd). unfold round_samples. now rewrite Hd.
Qed.

Lemma gen_loop_measured (fuel n : nat) :
  forall k c w u c' w', 0 <= k <= gen_rounds teb wide c ->
  gen_rounds teb wide c < U32.modulus ->
  gen_loop teb wide n k fuel c w = Some (u, c', w') ->
  Z.of_nat (measured w) + (gen_rounds teb wide c - k) * round_samples c
  + (if (k =? 0) && (0 <? gen_rounds teb wide c) then 1 else 0)
  <= Z.of_nat (measured w').
Proof.
  assert (Hdone : forall m k c w u c' w',
            gen_rounds teb wide c <= k <= gen_rounds teb wide c ->
            gen_loop teb wide m k fuel c w = Some (u, c', w') ->
            Z.of_nat (measured w)
            + (gen_rounds teb wide c - k) * round_samples c
            + (if (k =? 0) && (0 <? gen_rounds teb wide c) then 1 else 0)
            <= Z.of_nat (measured w')).
  { intros m k c w u c' w' Hk. rewrite gen_loop_done by lia.
    intros [= _ _ <-].
    replace (gen_rounds teb wide c - k) with 0 by lia.
    destruct (k =? 0) eqn:Ek; cbn [andb]; [| lia].
    apply Z.eqb_eq in Ek.
    replace (0 <? gen_rounds teb wide c) with false
      by (symmetry; apply Z.ltb_ge; lia).
    lia. }
  induction n as [| n IH]; intros k c w u c' w' Hk Hbound;
    destruct (Z.lt_ge_cases k (gen_rounds teb wide c)) as [Hlt | Hge];
    try (apply Hdone; lia).
  - now rewrite gen_loop_cut.
  - rewrite gen_loop_step by assumption.
    pose proof (gen_loop_priming k c w) as Hpre.
    destruct (if k =? 0 then _ else _) as [c1 w1].
    destruct (Hpre c1 w1 eq_refl) as (_ & S1 & _ & Hm1).
    destruct (jent_unbiased_bit teb fuel c1 w1) as [[[bit c2] w2] |] eqn:E;
      [| discriminate].
    pose proof (unbiased_bit_measured fuel c1 w1 _ _ _ E) as Hm2.
    rewrite (round_samples_settings c) in Hm2 by exact S1.
    apply unbiased_bit_frame in E as (_ & S2 & _).
    assert (S3 : same_settings c
                   (set_data c2 (rol64 (Z.lxor (data c2) bit) teb))).
    { eapply same_settings_trans; [exact S1 |].
      eapply same_settings_trans; [exact S2 |].
      apply same_settings_set_data. }
    assert (Hwrap : U32.wrap (k + 1) = k + 1)
      by (unfold U32.wrap; apply Z.mod_small; lia).
    rewrite Hwrap. intros Hrest.
    apply IH in Hrest;
      rewrite ?(gen_rounds_settings c), ?(round_samples_settings c) in *
        by exact S3; [| lia | lia].
    replace (k + 1 =? 0) with false in Hrest
      by (symmetry; apply Z.eqb_neq; lia).
    replace (0 <? gen_rounds teb wide c) with true
      by (symmetry; apply Z.ltb_lt; lia).
    cbn [andb] in Hrest. rewrite andb_true_r.
    unfold round_samples in *.
    destruct (disable_unbias c); destruct (k =? 0); lia.
Qed.

Lemma gen_rounds_nonneg (c : rand_data) : 0 <= gen_rounds teb wide c.
Proof.
  unfold gen_rounds. cbv zeta.
  destruct wide; [unfold wrap, modulus, DATA_SIZE_BITS
                 | unfold U32.wrap, U32.modulus];
    apply Z.mod_pos_bound; reflexivity.
Qed.

(** A generation pass that returns has reached its bound, and has
    taken the samples of every round and the priming one. *)
Lemma gen_entropy_measured (fuel : nat) (c : rand_data) (w : World) :
  forall u c' w', jent_gen_entropy teb wide fuel c w = Some (u, c', w') ->
  gen_rounds teb wide c < U32.modulus /\
  (1 <= gen_rounds teb wide c ->
   Z.of_nat (measured w) + gen_rounds teb wide c * round_samples c + 1
   <= Z.of_nat (measured w')).
Proof.
  intros u c' w' E.
  destruct (Z.lt_ge_cases (gen_rounds teb wide c) U32.modulus)
    as [Hfit | Hbeyond];
    [| now rewrite gen_entropy_beyond_counter in E].
  split; [exact Hfit |]. intros Hpos.
  revert E. rewrite gen_entropy_unfold.
  destruct (gen_loop _ _ _ _ _ _ _) as [[[u1 c1] w1] |] eqn:E;
    [| discriminate].
  intros [= _ _ <-].
  apply gen_loop_measured in E; [| lia | exact Hfit].
  replace (0 <? gen_rounds teb wide c) with true in E
    by (symmetry; apply Z.ltb_lt; lia).
  cbn [Z.eqb andb] in E. lia.
Qed.

(** Without the unbiaser the pass returns whenever its bound is within
    the counter, and the count is exact. *)
Lemma gen_entropy_no_unbias_rounds (fuel : nat) (c : rand_data)
    (w : World) :
  gen_rounds teb wide c < U32.modulus -> disable_unbias c = true ->
  exists c' w',
    jent_gen_entropy teb wide fuel c w = Some (tt, c', w') /\
    Z.of_nat (measured w')
    = Z.of_nat (measured w)
      + (if gen_rounds teb wide c =? 0 then 0
         else gen_rounds teb wide c + 1).
Proof.
  intros Hfit Hdis. rewrite gen_entropy_unfold.
  pose proof (gen_rounds_nonneg c) as Hpos.
  destruct (gen_loop_no_unbias fuel (Z.to_nat (gen_rounds teb wide c)) 0 c w)
    as (c' & w' & Hrun & Hm); [lia | lia | lia | assumption |].
  rewrite Hrun. do 2 eexists. split; [reflexivity |].
  rewrite Hm. cbn [Z.eqb andb].
  destruct (gen_rounds teb wide c =? 0) eqn:E0.
  - apply Z.eqb_eq in E0. rewrite E0. change (Z.to_nat 0) with O.
    cbn [Nat.eqb negb]. lia.
  - apply Z.eqb_neq in E0.
    destruct (Z.to_nat (gen_rounds teb wide c)) as [| r] eqn:Er; [lia |].
    cbn [Nat.eqb negb]. lia.
Qed.

End Generation.


(** ** The FIPS continuous test *)

Section Fips.

Variable teb : Z.
Variable wide : bool.

(** The control flow of [jent_fips_test], branch by branch. *)
Lemma fips_test_unfold (fuel : nat) (c : rand_data) (w : World) :
  jent_fips_test teb wide fuel c w =
  if negb (fips_mode w) then Some (0, c, w)
  else if fips_fail c then Some (-1, c, w)
  else
    match (if old_data c =? 0
           then jent_gen_entropy teb wide fuel (set_old_data c (data c)) w
           else Some (tt, c, w))
    with
    | None => None
    | Some (_, c1, w1) =>
        if data c1 =? old_data c1
        then Some (-1, set_fips_fail c1 true, w1)
        else Some (0, set_old_data c1 (data c1), w1)
    end.
Proof.
  unfold jent_fips_test, jent_fips_enabled, bind, world, get, ret, modify.
  destruct (negb (fips_mode w)); [reflexivity |].
  destruct (fips_fail c); [reflexivity |].
  destruct (old_data c =? 0).
  - destruct (jent_gen_entropy _ _ _ _) as [[[u c1] w1] |];
      [| reflexivity].
    now destruct (data c1 =? old_data c1).
  - now destruct (data c =? old_data c).
Qed.

(** C2, amended.  With FIPS mode on, [fips_failed] unset and
    [old_data = 0], the test stores the pool in [old_data], runs one
    generation pass and then compares as on any other call: if the
    fresh pool equals the stored one it sets [fips_failed] and returns
    -1; if not it stores the fresh pool in [old_data] and returns 0. *)
Theorem fips_test_primes_then_compares
    (fuel : nat) (c : rand_data) (w : World) :
  fips_mode w = true -> fips_fail c = false -> old_data c = 0 ->
  jent_fips_test teb wide fuel c w =
  match jent_gen_entropy teb wide fuel (set_old_data c (data c)) w with
  | None => None
  | Some (_, c1, w1) =>
      if data c1 =? data c
      then Some (-1, set_fips_fail c1 true, w1)
      else Some (0, set_old_data c1 (data c1), w1)
  end.
Proof.
  intros Hmode Hfail Hold.
  rewrite fips_test_unfold, Hmode, Hfail, Hold. cbn [negb Z.eqb].
  destruct (jent_gen_entropy _ _ _ _) as [[[u c1] w1] |] eqn:E;
    [| reflexivity].
  apply gen_entropy_frame in E as [(Ho & _) _].
  now rewrite Ho.
Qed.

End Fips.

Lemma fips_test_primes_then_compares_witness :
  jent_fips_test 1 true 1 (collector 1 0 false false true)
    (boot drifting_timer true) =
  match jent_gen_entropy 1 true 1
          (set_old_data (collector 1 0 false false true) 1)
          (boot drifting_timer true)
  with
  | None => None
  | Some (_, c1, w1) =>
      if data c1 =? 1
      then Some (-1, set_fips_fail c1 true, w1)
      else Some (0, set_old_data c1 (data c1), w1)
  end.
Proof.
  apply (fips_test_primes_then_compares 1 true 1
           (collector 1 0 false false true) (boot drifting_timer true));
    reflexivity.
Defined.

(** C2, as stated, fails: a collector with [old_data = 0] whose
    generation pass gives back the pool it started from is failed by the
    very call that primes the test. *)
Lemma fips_priming_call_can_fail :
  exists c' w',
    jent_fips_test 1 true 1 (collector 1 0 false false true)
      (boot stuck_timer true) = Some (-1, c', w') /\
    fips_fail c' = true /\ measured w' = 65%nat.
Proof.
  do 2 eexists. split; [vm_compute; reflexivity | split; reflexivity].
Qed.

(** ** The read entry point *)

Section Reading.

Variable teb : Z.
Variable wide : bool.

Lemma read_loop_done (n fuel : nat) (buf : list Z) (p : nat) (len : Z)
    (c : rand_data) (w : World) :
  len <= 0 -> read_loop teb wide n fuel buf p len c w = Some (0, buf, c, w).
Proof.
  intros Hlen.
  assert (Hguard : (0 <? len) = false) by (apply Z.ltb_ge; lia).
  destruct n; cbn [read_loop]; now rewrite Hguard.
Qed.

(** One round of the [while (0 < len)] loop. *)
Lemma read_loop_step (n fuel : nat) (buf : list Z) (p : nat) (len : Z)
    (c : rand_data) (w : World) :
  0 < len ->
  read_loop teb wide (S n) fuel buf p len c w =
  match jent_gen_entropy teb wide fuel c w with
  | None => None
  | Some (_, c1, w1) =>
      match jent_fips_test teb wide fuel c1 w1 with
      | None => None
      | Some (r, c2, w2) =>
          if 0 >? r then Some (r, buf, c2, w2)
          else
            let tocopy := if 8 <? len then 8 else len in
            read_loop teb wide n fuel
              (memcpy buf p (data c2) (Z.to_nat tocopy))
              (p + Z.to_nat tocopy)%nat (len - tocopy) c2 w2
      end
  end.
Proof.
  intros Hlen.
  assert (Hguard : (0 <? len) = true) by (apply Z.ltb_lt; lia).
  cbn [read_loop]. rewrite Hguard. unfold bind, get, ret.
  destruct (jent_gen_entropy _ _ _ _) as [[[u c1] w1] |]; [| reflexivity].
  destruct (jent_fips_test _ _ _ _) as [[[r c2] w2] |]; [| reflexivity].
  now destruct (0 >? r).
Qed.

(** [jent_read_entropy] on a collector: the loop, then the scrub. *)
Lemma read_entropy_unfold (secure : bool) (fuel : nat) (c : rand_data)
    (buf : list Z) (len : Z) (w : World) :
  jent_read_entropy teb wide secure fuel (Some c) buf len w =
  match read_loop teb wide (Z.to_nat len) fuel buf 0 len c w with
  | None => None
  | Some (r, buf', c1, w1) =>
      if 0 >? r then Some (r, buf', Some c1, w1)
      else if secure then Some (U32.to_int len, buf', Some c1, w1)
      else
        match jent_gen_entropy teb wide fuel c1 w1 with
        | None => None
        | Some (_, c2, w2) => Some (U32.to_int len, buf', Some c2, w2)
        end
  end.
Proof.
  unfold jent_read_entropy, read_body, bind, ret.
  destruct (read_loop _ _ _ _ _ _ _ _) as [[[[r buf'] c1] w1] |];
    [| reflexivity].
  destruct (0 >? r); [reflexivity |].
  destruct secure; [reflexivity |].
  now destruct (jent_gen_entropy _ _ _ _) as [[[u c2] w2] |].
Qed.



End Reading.





(** ** Counting jitter measurements *)

Section Counting.

Variable teb : Z.
Variable wide : bool.
Hypothesis teb_pos : 1 <= teb.

Lemma gen_pass_no_unbias (fuel : nat) (c : rand_data) (w : World) :
  1 <= osr c -> osr c * ceil_div 64 teb < 2 ^ 32 ->
  disable_unbias c = true ->
  exists c' w',
    jent_gen_entropy teb wide fuel c w = Some (tt, c', w') /\
    same_settings c c' /\ same_platform w w' /\
    Z.of_nat (measured w')
    = Z.of_nat (measured w) + (osr c * ceil_div 64 teb + 1).
Proof using teb_pos.
  intros Hosr Hfit Hdis.
  destruct (gen_entropy_no_unbias teb wide fuel c w teb_pos Hosr Hfit Hdis)
    as (c' & w' & Hrun & Hm).
  exists c', w'.
  pose proof (gen_entropy_frame teb wide fuel c w _ _ _ Hrun).
  tauto.
Qed.

Lemma fips_test_no_unbias (fuel : nat) (c : rand_data) (w : World) :
  1 <= osr c -> osr c * ceil_div 64 teb < 2 ^ 32 ->
  disable_unbias c = true ->
  exists r c' w',
    jent_fips_test teb wide fuel c w = Some (r, c', w') /\
    (r = 0 \/ r = -1) /\
    osr c' = osr c /\ disable_unbias c' = true /\
    (r = 0 ->
     Z.of_nat (measured w')
     = Z.of_nat (measured w)
       + (if fips_mode w && (old_data c =? 0)
          then osr c * ceil_div 64 teb + 1 else 0)).
Proof using teb_pos.
  intros Hosr Hfit Hdis. rewrite fips_test_unfold.
  destruct (fips_mode w); cbn [negb andb].
  2: { exists 0, c, w. repeat split; auto; lia. }
  destruct (fips_fail c).
  { exists (-1), c, w. repeat split; auto; lia. }
  destruct (old_data c =? 0).
  - destruct (gen_pass_no_unbias fuel (set_old_data c (data c)) w)
      as (c1 & w1 & -> & (_ & _ & Ho & _ & Hd) & _ & Hm);
      [exact Hosr | exact Hfit | exact Hdis |].
    cbn [osr disable_unbias set_old_data] in Ho, Hd, Hm.
    destruct (data c1 =? old_data c1).
    + exists (-1), (set_fips_fail c1 true), w1.
      repeat split; auto; try lia; simpl; congruence.
    + exists 0, (set_old_data c1 (data c1)), w1.
      repeat split; auto; simpl; congruence.
  - destruct (data c =? old_data c).
    + exists (-1), (set_fips_fail c true), w.
      repeat split; auto; lia.
    + exists 0, (set_old_data c (data c)), w.
      repeat split; auto; lia.
Qed.

Lemma gen_pass_measured (fuel : nat) (c : rand_data) (w : World) :
  1 <= osr c -> osr c * ceil_div 64 teb < 2 ^ 32 ->
  forall u c' w', jent_gen_entropy teb wide fuel c w = Some (u, c', w') ->
  same_settings c c' /\ same_platform w w' /\
  Z.of_nat (measured w)
  + (osr c * ceil_div 64 teb * round_samples c + 1)
  <= Z.of_nat (measured w').
Proof using teb_pos.
  intros Hosr Hfit u c' w' E.
  pose proof (gen_entropy_frame teb wide fuel c w _ _ _ E) as [S1 P1].
  pose proof (gen_entropy_measured teb wide fuel c w _ _ _ E) as [_ Hm].
  pose proof (gen_rounds_ceil teb wide c teb_pos ltac:(lia) Hfit) as Hceil.
  pose proof (gen_rounds_pos teb wide c teb_pos Hosr Hfit) as Hpos.
  specialize (Hm Hpos). rewrite Hceil in Hm.
  split; [exact S1 |]. split; [exact P1 |].
  rewrite (Z.mul_comm (osr c)). lia.
Qed.

Lemma fips_test_measured (fuel : nat) (c : rand_data) (w : World) :
  1 <= osr c -> osr c * ceil_div 64 teb < 2 ^ 32 ->
  forall r c' w', jent_fips_test teb wide fuel c w = Some (r, c', w') ->
  (r = 0 \/ r = -1) /\
  osr c' = osr c /\ disable_unbias c' = disable_unbias c /\
  (r = 0 ->
   Z.of_nat (measured w)
   + (if fips_mode w && (old_data c =? 0)
      then osr c * ceil_div 64 teb * round_samples c + 1 else 0)
   <= Z.of_nat (measured w')).
Proof using teb_pos.
  intros Hosr Hfit r c' w'. rewrite fips_test_unfold.
  destruct (fips_mode w); cbn [negb andb].
  2: { intros [= <- <- <-]. repeat split; auto; lia. }
  destruct (fips_fail c).
  { intros [= <- <- <-]. repeat split; auto; lia. }
  destruct (old_data c =? 0).
  - destruct (jent_gen_entropy _ _ _ _ _) as [[[u c1] w1] |] eqn:E;
      [| discriminate].
    apply gen_pass_measured in E
      as ((_ & _ & Ho & _ & Hd) & _ & Hm); [| exact Hosr | exact Hfit].
    change (round_samples (set_old_data c (data c)))
      with (round_samples c) in Hm.
    cbn [osr disable_unbias set_old_data] in Ho, Hd, Hm.
    destruct (data c1 =? old_data c1); intros [= <- <- <-].
    + repeat split; auto; lia.
    + repeat split; auto.
  - destruct (data c =? old_data c); intros [= <- <- <-];
      repeat split; auto; lia.
Qed.

(** C8, amended.  With an oversampling rate [k >= 1] and a round count
    [k * ceil (64 / teb)] below [2 ^ 32], a read of 8 bytes that
    returns gives 8 or -1.  When it gives 8 it has run the generation
    pass two or three times (once for the bytes handed out, once more
    when the FIPS test primes itself, once for the scrub unless the
    build has secure memory), and each pass has taken the priming
    measurement and at least [k * ceil (64 / teb)] jitter measurements,
    twice as many with the unbiaser on.  With the unbiaser off the read
    always returns, and each pass takes exactly [k * ceil (64 / teb)]
    jitter measurements and the priming one. *)
Theorem read_eight_bytes_measurements
    (secure : bool) (fuel : nat) (c : rand_data) (buf : list Z)
    (w : World) :
  1 <= osr c -> osr c * ceil_div 64 teb < 2 ^ 32 ->
  (forall r buf' c' w',
     jent_read_entropy teb wide secure fuel (Some c) buf 8 w
     = Some (r, buf', c', w') ->
     (r = 8 \/ r = -1) /\
     (r = 8 ->
      Z.of_nat (measured w)
      + read_passes secure c w
        * (osr c * ceil_div 64 teb * round_samples c + 1)
      <= Z.of_nat (measured w'))) /\
  (disable_unbias c = true ->
   exists r buf' c' w',
     jent_read_entropy teb wide secure fuel (Some c) buf 8 w
     = Some (r, buf', Some c', w') /\
     (r = 8 \/ r = -1) /\
     (r = 8 ->
      Z.of_nat (measured w')
      = Z.of_nat (measured w)
        + read_passes secure c w * (osr c * ceil_div 64 teb + 1))).
Proof using teb_pos.
  intros Hosr Hfit. unfold read_passes. split.
  - intros r buf' c' w'. rewrite read_entropy_unfold.
    change (Z.to_nat 8) with 8%nat. rewrite read_loop_step by lia.
    destruct (jent_gen_entropy teb wide fuel c w) as [[[u c1] w1] |] eqn:E1;
      [| discriminate].
    apply gen_pass_measured in E1
      as ((Ho1 & _ & Hosr1 & _ & Hd1) & (_ & Hmode1) & Hm1);
      [| exact Hosr | exact Hfit].
    destruct (jent_fips_test teb wide fuel c1 w1) as [[[r2 c2] w2] |] eqn:E2;
      [| discriminate].
    apply fips_test_measured in E2 as (Hr & Hosr2 & Hd2 & Hm2);
      [| lia | now rewrite Hosr1].
    assert (Hs1 : round_samples c1 = round_samples c)
      by (unfold round_samples; now rewrite Hd1).
    assert (Hs2 : round_samples c2 = round_samples c)
      by (unfold round_samples; now rewrite Hd2, Hd1).
    rewrite Hmode1, Ho1, Hosr1, Hs1 in Hm2.
    set (P := osr c * ceil_div 64 teb * round_samples c + 1) in *.
    destruct Hr as [-> | ->].
    + specialize (Hm2 eq_refl).
      change (0 >? 0) with false. change (8 <? 8) with false.
      cbv zeta iota. rewrite read_loop_done by lia.
      change (0 >? 0) with false. cbv iota.
      destruct secure.
      * intros [= <- _ _ <-]. split; [now left |].
        intros _. destruct (fips_mode w && (old_data c =? 0)); lia.
      * destruct (jent_gen_entropy teb wide fuel c2 w2)
          as [[[u3 c3] w3] |] eqn:E3; [| discriminate].
        apply gen_pass_measured in E3 as (_ & _ & Hm3);
          [| lia | now rewrite Hosr2, Hosr1].
        rewrite Hosr2, Hosr1, Hs2 in Hm3. fold P in Hm3.
        intros [= <- _ _ <-]. split; [now left |].
        intros _. destruct (fips_mode w && (old_data c =? 0)); lia.
    + change (0 >? -1) with true. cbv iota.
      intros [= <- _ _ _]. split; [now right | discriminate].
  - intros Hdis. rewrite read_entropy_unfold.
    change (Z.to_nat 8) with 8%nat. rewrite read_loop_step by lia.
    destruct (gen_pass_no_unbias fuel c w Hosr Hfit Hdis)
      as (c1 & w1 & -> & (Ho1 & _ & Hosr1 & _ & Hd1) & (_ & Hmode1) & Hm1).
    destruct (fips_test_no_unbias fuel c1 w1)
      as (r & c2 & w2 & -> & Hr & Hosr2 & Hd2 & Hm2);
      [lia | now rewrite Hosr1 | congruence |].
    rewrite Hmode1, Ho1, Hosr1 in Hm2.
    set (P := osr c * ceil_div 64 teb + 1) in *.
    destruct Hr as [-> | ->].
    + specialize (Hm2 eq_refl).
      change (0 >? 0) with false. change (8 <? 8) with false.
      cbv zeta iota. rewrite read_loop_done by lia.
      change (0 >? 0) with false. cbv iota.
      destruct secure.
      * do 4 eexists. split; [reflexivity |]. split; [now left |].
        intros _. destruct (fips_mode w && (old_data c =? 0)); lia.
      * destruct (gen_pass_no_unbias fuel c2 w2)
          as (c3 & w3 & -> & _ & _ & Hm3);
          [lia | now rewrite Hosr2, Hosr1 | congruence |].
        rewrite Hosr2, Hosr1 in Hm3. fold P in Hm3.
        do 4 eexists. split; [reflexivity |]. split; [now left |].
        intros _. destruct (fips_mode w && (old_data c =? 0)); lia.
    + change (0 >? -1) with true. cbv iota.
      do 4 eexists. split; [reflexivity |]. split; [now right |].
      discriminate.
Qed.

End Counting.

Lemma read_eight_bytes_measurements_witness :
  exists r buf' c' w',
    jent_read_entropy 1 true false 1 (Some (collector 1 0 false false true))
      [0; 0; 0; 0; 0; 0; 0; 0] 8 (boot drifting_timer true)
    = Some (r, buf', Some c', w') /\
    (r = 8 \/ r = -1) /\
    (r = 8 ->
     Z.of_nat (measured w')
     = Z.of_nat (measured (boot drifting_timer true))
       + read_passes false (collector 1 0 false false true)
           (boot drifting_timer true)
         * (osr (collector 1 0 false false true) * ceil_div 64 1 + 1)).
Proof.
  refine (proj2 (read_eight_bytes_measurements 1 true (Z.le_refl 1) false 1
                   (collector 1 0 false false true)
                   [0; 0; 0; 0; 0; 0; 0; 0] (boot drifting_timer true)
                   _ _) _).
  - simpl. lia.
  - reflexivity.
  - reflexivity.
Defined.

(** C8, as stated, fails: with oversampling rate 1, one time entropy
    bit and the unbiaser off, a read of 8 bytes returns 8 after 130
    jitter measurements, twice the 64 and the priming one. *)
Lemma read_eight_bytes_takes_two_passes :
  exists buf' c' w',
    jent_read_entropy 1 true false 1 (Some (collector 1 0 false false true))
      [0; 0; 0; 0; 0; 0; 0; 0] 8 (boot drifting_timer false)
    = Some (8, buf', Some c', w') /\
    measured w' = 130%nat /\
    Z.of_nat (measured w') <> 1 * ceil_div 64 1 + 1.
Proof.
  do 3 eexists.
  split; [vm_compute; reflexivity | split; [reflexivity | now vm_compute]].
Qed.

(** ** The startup health test *)

Section Startup.

Variable teb : Z.

Lemma init_body_errors (i : Z) (v : init_vars) (w : World) :
  forall e, init_body teb i v w = inl e ->
  e = ENOTIME \/ e = ECOARSETIME \/ e = EMINVARIATION.
Proof.
  intros e. unfold init_body.
  destruct (jent_get_nstime w) as [time w1].
  destruct (jent_fold_time teb None time _ w1) as [[folded cnt] w2].
  destruct (jent_get_nstime w2) as [time2 w3].
  repeat match goal with
         | |- context [if ?b then _ else _] => destruct b
         end;
    intros H; inversion H; auto.
Qed.

Lemma init_loop_errors (n : nat) :
  forall i v w e, init_loop teb n i v w = inl e ->
  e = ENOTIME \/ e = ECOARSETIME \/ e = EMINVARIATION.
Proof.
  induction n as [| n IH]; intros i v w e; cbn [init_loop];
    [discriminate |].
  destruct (init_body teb i v w) as [e' | [v' w']] eqn:E.
  - intros [= <-]. eapply init_body_errors; eassumption.
  - apply IH.
Qed.

(** Since [!] binds tighter than [>], the mean variation check
    compares 0 or 1 with [TIME_ENTROPY_BITS] and never fires. *)
Lemma init_checks_never_minvarvar (v : init_vars) :
  1 <= teb -> init_checks teb v <> EMINVARVAR.
Proof.
  intros Hteb. unfold init_checks, lnot.
  destruct (3 <? time_backwards v); [discriminate |].
  destruct (delta_sum v =? 0); [discriminate |].
  replace ((if delta_sum v / TESTLOOPCOUNT =? 0 then 1 else 0) >? teb)
    with false
    by (symmetry; rewrite Z.gtb_ltb; apply Z.ltb_ge;
        destruct (delta_sum v / TESTLOOPCOUNT =? 0); lia).
  destruct (TESTLOOPCOUNT / 10 * 9 <? count_mod v); discriminate.
Qed.

Lemma init_never_minvarvar (w : World) :
  1 <= teb -> jent_entropy_init teb w <> EMINVARVAR.
Proof.
  intros Hteb. unfold jent_entropy_init.
  destruct (init_loop teb _ 0 init_vars0 w) as [e | [v w']] eqn:E.
  - apply init_loop_errors in E as [-> | [-> | ->]]; discriminate.
  - now apply init_checks_never_minvarvar.
Qed.

End Startup.

(** C1 does not hold of the code.  On a timer whose deltas alternate
    between 2 and 3 every round of the loop passes its checks, time
    never runs backwards, and the deltas sum up to 301, so that the mean
    variation [301 / 300 = 1] does not exceed the one time entropy bit;
    the startup test returns success all the same. *)
Theorem init_accepts_mean_variation_at_bound :
  exists v w',
    init_loop 1 (Z.to_nat (TESTLOOPCOUNT + CLEARCACHE)) 0 init_vars0
      (boot wobbling_timer false) = inr (v, w') /\
    time_backwards v = 0 /\ delta_sum v = 301 /\
    delta_sum v / TESTLOOPCOUNT <= 1 /\
    jent_entropy_init 1 (boot wobbling_timer false) = INIT_OK.
Proof.
  do 2 eexists.
  split; [vm_compute; reflexivity |].
  repeat split; now vm_compute.
Qed.

(** C9 does not hold of the code.  On a timer that advances by one per
    reading the warm-up rounds 0 to 99 leave [delta_sum] and [count_var]
    at 0, and the round with [i = CLEARCACHE], the first measured one,
    adds its delta 2 to [delta_sum] and counts a variation against the
    [old_delta] of 0 it starts from. *)
Theorem init_first_measured_round_is_counted :
  exists v w v' w',
    init_loop 1 (Z.to_nat CLEARCACHE) 0 init_vars0
      (boot steady_timer false) = inr (v, w) /\
    delta_sum v = 0 /\ count_var v = 0 /\ old_delta v = 0 /\
    init_body 1 CLEARCACHE v w = inr (v', w') /\
    delta_sum v' = 2 /\ count_var v' = 1.
Proof.
  do 4 eexists.
  split; [vm_compute; reflexivity |].
  do 3 (split; [reflexivity |]).
  split; [vm_compute; reflexivity |].
  split; reflexivity.
Qed.

(** * Further properties *)

(** ** The shuffler and the fold *)

(** X1.  For a window of 1 to 30 bits and a minimum exponent of 0 to 30
    the loop count that [jent_loop_shuffle] returns lies in
    [[2 ^ min, 2 ^ min + 2 ^ bits)], with or without a collector, and
    the call takes exactly one reading off the timer. *)
Theorem loop_shuffle_bounds (ec : option rand_data) (bits min : Z)
    (w : World) :
  1 <= bits <= 30 -> 0 <= min <= 30 ->
  2 ^ min <= fst (jent_loop_shuffle ec bits min w) < 2 ^ min + 2 ^ bits /\
  ticks (snd (jent_loop_shuffle ec bits min w)) = S (ticks w) /\
  same_platform w (snd (jent_loop_shuffle ec bits min w)).
Proof.
  intros Hbits Hmin. split.
  - apply jent_loop_shuffle_range; lia.
  - unfold jent_loop_shuffle, jent_get_nstime, same_platform. cbn. auto.
Qed.

Lemma loop_shuffle_bounds_witness :
  2 ^ 0 <= fst (jent_loop_shuffle None 4 0 (boot steady_timer false))
    < 2 ^ 0 + 2 ^ 4 /\
  ticks (snd (jent_loop_shuffle None 4 0 (boot steady_timer false)))
    = 1%nat /\
  same_platform (boot steady_timer false)
    (snd (jent_loop_shuffle None 4 0 (boot steady_timer false))).
Proof.
  apply (loop_shuffle_bounds None 4 0 (boot steady_timer false)); lia.
Defined.

(** X2.  What [jent_fold_time] emits does not depend on how often it
    folds: for every loop count handed in, and for the shuffled one
    taken when 0 is handed in, the folded value is that of one fold
    pass over the time stamp.  The loop count returned is the one handed
    in, or a shuffled one between 1 and 16. *)
Theorem fold_time_result (teb : Z) (ec : option rand_data)
    (t loop_cnt : Z) (w : World) :
  0 <= loop_cnt ->
  fst (fst (jent_fold_time teb ec t loop_cnt w)) = fold_pass teb t /\
  (loop_cnt <> 0 ->
   snd (fst (jent_fold_time teb ec t loop_cnt w)) = loop_cnt) /\
  (loop_cnt = 0 ->
   1 <= snd (fst (jent_fold_time teb ec t loop_cnt w)) <= 16).
Proof.
  intros Hcnt.
  destruct (Z.eqb_spec loop_cnt 0) as [-> | Hne].
  - split; [apply jent_fold_time_folded |].
    split; [congruence | intros _; apply fold_loop_count_range].
  - unfold jent_fold_time.
    destruct (jent_loop_shuffle ec MAX_FOLD_LOOP_BIT MIN_FOLD_LOOP_BIT w)
      as [shuffled w1].
    replace (loop_cnt =? 0) with false by (symmetry; now apply Z.eqb_neq).
    cbn [fst snd]. split; [apply fold_outer_pass; lia |].
    split; [reflexivity | congruence].
Qed.

Lemma fold_time_result_witness :
  fst (fst (jent_fold_time 1 None 5 3 (boot steady_timer false)))
    = fold_pass 1 5 /\
  (3 <> 0 ->
   snd (fst (jent_fold_time 1 None 5 3 (boot steady_timer false))) = 3) /\
  (3 = 0 ->
   1 <= snd (fst (jent_fold_time 1 None 5 3 (boot steady_timer false)))
     <= 16).
Proof.
  apply (fold_time_result 1 None 5 3 (boot steady_timer false)). lia.
Defined.

(** ** The memory walk *)

Section MemWalk.

Variable bsz wrap_at : Z.
Hypothesis bsz_pos : 0 < bsz.
Hypothesis bsz_le : bsz <= wrap_at.
Hypothesis wrap_small_enough : wrap_at < 2 ^ 31.

Lemma memaccess_step_inv (m : list Z) (loc : Z) :
  Z.of_nat (length m) = wrap_at -> 0 <= loc < wrap_at ->
  Forall is_byte m ->
  forall m' loc', memaccess_step bsz wrap_at (m, loc) = (m', loc') ->
  length m' = length m /\ Forall is_byte m' /\
  loc' = (loc + (bsz - 1)) mod wrap_at /\ 0 <= loc' < wrap_at.
Proof using bsz_pos bsz_le wrap_small_enough.
  intros Hlen Hloc Hbytes m' loc'. unfold memaccess_step.
  assert (Hwrap : U32.wrap (loc + bsz - 1) = loc + (bsz - 1)).
  { unfold U32.wrap, U32.modulus. rewrite Z.mod_small; [lia |].
    change (2 ^ 31) with 2147483648 in wrap_small_enough.
    change (2 ^ 32) with 4294967296. lia. }
  rewrite Hwrap.
  destruct (m !! Z.to_nat loc) as [v |] eqn:Hv; intros [= <- <-].
  - split; [apply length_insert |].
    split; [| split; [reflexivity | apply Z.mod_pos_bound; lia]].
    apply Forall_insert; [assumption |].
    unfold is_byte. change 255 with (Z.ones 8).
    rewrite Z.land_ones by lia. apply Z.mod_pos_bound. reflexivity.
  - split; [reflexivity |].
    split; [assumption |].
    split; [reflexivity | apply Z.mod_pos_bound; lia].
Qed.

Lemma memaccess_iter_inv (n : nat) (m : list Z) (loc : Z) :
  Z.of_nat (length m) = wrap_at -> 0 <= loc < wrap_at ->
  Forall is_byte m ->
  forall m' loc',
  Nat.iter n (memaccess_step bsz wrap_at) (m, loc) = (m', loc') ->
  length m' = length m /\ Forall is_byte m' /\
  loc' = (loc + Z.of_nat n * (bsz - 1)) mod wrap_at /\
  0 <= loc' < wrap_at.
Proof using bsz_pos bsz_le wrap_small_enough.
  intros Hlen Hloc Hbytes.
  induction n as [| n IH]; intros m' loc'.
  - simpl. intros [= <- <-].
    rewrite Z.add_0_r, Z.mod_small by lia. auto.
  - rewrite Nat.iter_succ.
    destruct (Nat.iter n (memaccess_step bsz wrap_at) (m, loc))
      as [m1 loc1] eqn:E1.
    destruct (IH m1 loc1 eq_refl) as (L1 & B1 & Hl1 & R1).
    intros Hstep.
    apply memaccess_step_inv in Hstep as (L2 & B2 & Hl2 & R2);
      [| lia | assumption | assumption].
    split; [lia |]. split; [assumption |]. split; [| assumption].
    rewrite Hl2, Hl1, Z.add_mod_idemp_l by lia. f_equal. lia.
Qed.

End MemWalk.

Lemma memaccess_inv (c : rand_data) :
  mem_wf c ->
  mem_wf (jent_memaccess c) /\
  memblocksize (jent_memaccess c) = memblocksize c /\
  memblocks (jent_memaccess c) = memblocks c /\
  memaccessloops (jent_memaccess c) = memaccessloops c /\
  (mem c <> None ->
   memlocation (jent_memaccess c)
   = (memlocation c
      + Z.of_nat (Z.to_nat (memaccessloops c)) * (memblocksize c - 1))
     mod (memblocksize c * memblocks c)).
Proof.
  unfold mem_wf, jent_memaccess. intros Hwf.
  destruct (mem c) as [m |] eqn:Hm; [| rewrite Hm; tauto].
  destruct Hwf as (Hb & Hk & Hsmall & Hlen & Hloc & Hbytes).
  assert (Hwrap : U32.wrap (memblocksize c * memblocks c)
                  = memblocksize c * memblocks c).
  { unfold U32.wrap, U32.modulus. apply Z.mod_small.
    change (2 ^ 31) with 2147483648 in Hsmall.
    change (2 ^ 32) with 4294967296. nia. }
  rewrite Hwrap.
  destruct (Nat.iter _ _ _) as [m' loc'] eqn:E.
  apply (memaccess_iter_inv (memblocksize c)
           (memblocksize c * memblocks c)) in E
    as (L & B & Hl & R); try assumption; try nia.
  unfold set_mem. cbn. repeat split; try assumption; try lia.
Qed.

(** X3.  On a collector whose buffer spans [memblocksize * memblocks]
    bytes (below [2 ^ 31]) and whose location lies inside it, one call
    of [jent_memaccess] keeps the buffer's size, its bytes below 256 and
    the geometry, and moves the location by [memblocksize - 1] per
    access around the buffer: it ends at
    [(memlocation + memaccessloops * (memblocksize - 1))] modulo the
    buffer size, inside the buffer again. *)
Theorem memaccess_walk (c : rand_data) :
  mem c <> None -> mem_wf c -> 0 <= memaccessloops c ->
  mem_wf (jent_memaccess c) /\
  memlocation (jent_memaccess c)
  = (memlocation c + memaccessloops c * (memblocksize c - 1))
    mod (memblocksize c * memblocks c) /\
  memblocksize (jent_memaccess c) = memblocksize c /\
  memblocks (jent_memaccess c) = memblocks c /\
  memaccessloops (jent_memaccess c) = memaccessloops c.
Proof.
  intros Hmem Hwf Hloops.
  destruct (memaccess_inv c Hwf) as (W & B & K & L & Hloc).
  specialize (Hloc Hmem). rewrite Z2Nat.id in Hloc by assumption.
  tauto.
Qed.

Lemma memaccess_walk_witness :
  mem_wf (jent_memaccess
            (mk_rand_data 0 0 0 false 1 true false (Some [0; 255; 7; 0; 0; 0])
               1 2 3 4)) /\
  memlocation (jent_memaccess
            (mk_rand_data 0 0 0 false 1 true false (Some [0; 255; 7; 0; 0; 0])
               1 2 3 4)) = (1 + 4 * (3 - 1)) mod (3 * 2) /\
  memblocksize (jent_memaccess
            (mk_rand_data 0 0 0 false 1 true false (Some [0; 255; 7; 0; 0; 0])
               1 2 3 4)) = 3 /\
  memblocks (jent_memaccess
            (mk_rand_data 0 0 0 false 1 true false (Some [0; 255; 7; 0; 0; 0])
               1 2 3 4)) = 2 /\
  memaccessloops (jent_memaccess
            (mk_rand_data 0 0 0 false 1 true false (Some [0; 255; 7; 0; 0; 0])
               1 2 3 4)) = 4.
Proof.
  apply (memaccess_walk
           (mk_rand_data 0 0 0 false 1 true false
              (Some [0; 255; 7; 0; 0; 0]) 1 2 3 4)).
  - discriminate.
  - unfold mem_wf, is_byte. cbn.
    repeat split; try lia; repeat constructor; lia.
  - cbn. lia.
Defined.

(** ** One jitter measurement *)

(** X4.  A jitter measurement hands back one fold pass over the delta
    between the reading it takes and the time stamp of the measurement
    before, the subtraction wrapping around at [2 ^ 64]; it stores that
    reading as the new time stamp, takes two readings off the timer (its
    own and the shuffler's), and leaves the pool alone. *)
Theorem measure_jitter_sample (teb : Z) (c : rand_data) (w : World) :
  fst (fst (jent_measure_jitter teb c w))
  = fold_pass teb (wrap (reading w 0 - prev_time c)) /\
  prev_time (snd (fst (jent_measure_jitter teb c w))) = reading w 0 /\
  ticks (snd (jent_measure_jitter teb c w)) = (ticks w + 2)%nat /\
  data (snd (fst (jent_measure_jitter teb c w))) = data c.
Proof.
  destruct (jent_measure_jitter teb c w) as [[x c'] w'] eqn:E.
  cbn [fst snd]. unfold reading. rewrite Nat.add_0_r.
  pose proof (measure_jitter_frame teb c w x c' w' E)
    as (Hd & _ & _ & _ & Ht & Hp).
  split; [| split; [exact Hp | split; [lia | exact Hd]]].
  revert E. unfold jent_measure_jitter.
  rewrite memaccess_prev_time.
  destruct (jent_get_nstime w) as [time w1] eqn:Et.
  assert (Htime : time = wrap (timer w (ticks w)))
    by (unfold jent_get_nstime in Et; congruence).
  pose proof (jent_fold_time_folded teb
                (Some (set_prev_time (jent_memaccess c) time))
                (wrap (time - prev_time c)) w1) as Hfold.
  destruct (jent_fold_time teb _ _ 0 w1) as [[folded cnt] w2].
  cbn [fst] in Hfold. intros [= <- _ _]. now rewrite Hfold, Htime.
Qed.

(** ** Properties that every step keeps *)

Section Stable.

Variable teb : Z.
Variable wide : bool.
Hypothesis teb_range : 1 <= teb <= 64.
Variable P : rand_data -> Prop.
Hypothesis P_stable : stable teb P.

Lemma measure_stable (c : rand_data) (w : World) :
  forall x c' w', jent_measure_jitter teb c w = (x, c', w') -> P c -> P c'.
Proof using P_stable.
  intros x c' w' E HP.
  destruct (measure_jitter_state teb c w) as [Hc _].
  rewrite E in Hc. cbn [fst snd] in Hc. subst c'.
  destruct P_stable as (Hmem & Htime & _). auto.
Qed.

Lemma unbias_loop_stable (fuel : nat) :
  forall c w x c' w', unbias_loop teb fuel c w = Some (x, c', w') ->
  P c -> P c' /\ 0 <= x < 2 ^ teb.
Proof using P_stable teb_range.
  induction fuel as [| fuel IH]; intros c w x c' w'; [discriminate |].
  rewrite unbias_loop_step. unfold draw_pair.
  destruct (jent_measure_jitter teb c w) as [[a c1] w1] eqn:E1.
  destruct (jent_measure_jitter teb c1 w1) as [[b c2] w2] eqn:E2.
  intros Hrun HP.
  assert (HP2 : P c2) by eauto using measure_stable.
  destruct (a =? b); [now apply IH in Hrun |].
  injection Hrun as <- <- <-. split; [assumption |].
  assert (H2 : 2 ^ 1 <= 2 ^ teb) by (apply Z.pow_le_mono_r; lia).
  rewrite Z.pow_1_r in H2.
  match goal with
  | |- context [if ?t then _ else _] => destruct t
  end; lia.
Qed.

Lemma unbiased_bit_stable (fuel : nat) (c : rand_data) (w : World) :
  forall x c' w', jent_unbiased_bit teb fuel c w = Some (x, c', w') ->
  P c -> P c' /\ 0 <= x < 2 ^ teb.
Proof using P_stable teb_range.
  intros x c' w'. unfold jent_unbiased_bit.
  destruct (disable_unbias c); [| apply unbias_loop_stable].
  destruct (jent_measure_jitter teb c w) as [[x1 c1] w1] eqn:E.
  intros [= <- <- <-] HP. split.
  - eauto using measure_stable.
  - eapply measure_jitter_range; eassumption.
Qed.

Lemma gen_loop_stable (fuel n : nat) :
  forall k c w u c' w', gen_loop teb wide n k fuel c w = Some (u, c', w') ->
  P c -> P c'.
Proof using P_stable teb_range.
  induction n as [| n IH]; intros k c w u c' w';
    destruct (Z.lt_ge_cases k (gen_rounds teb wide c)) as [Hk | Hk];
    try (rewrite gen_loop_done by assumption; now intros [= _ <- <-]).
  - now rewrite gen_loop_cut.
  - rewrite gen_loop_step by assumption. intros Hrun HP.
    assert (Hpre : P (fst (if k =? 0
                           then (snd (fst (jent_measure_jitter teb c w)),
                                 snd (jent_measure_jitter teb c w))
                           else (c, w)))).
    { destruct (k =? 0); [| assumption].
      destruct (jent_measure_jitter teb c w) as [[x cm] wm] eqn:E.
      cbn [fst snd]. eauto using measure_stable. }
    destruct (if k =? 0 then _ else _) as [c1 w1]. cbn [fst] in Hpre.
    destruct (jent_unbiased_bit teb fuel c1 w1) as [[[bit c2] w2] |] eqn:E;
      [| discriminate].
    apply unbiased_bit_stable in E as [HP2 Hbit]; [| assumption].
    apply IH in Hrun; [assumption |].
    destruct P_stable as (_ & _ & Hacc & _). auto.
Qed.

Lemma gen_entropy_stable (fuel : nat) (c : rand_data) (w : World) :
  forall u c' w', jent_gen_entropy teb wide fuel c w = Some (u, c', w') ->
  P c -> P c'.
Proof using P_stable teb_range.
  intros u c' w'. rewrite gen_entropy_unfold.
  destruct (gen_loop _ _ _ _ _ _ _) as [[[u1 c1] w1] |] eqn:E;
    [| discriminate].
  intros [= _ <- <-] HP.
  apply gen_loop_stable in E; [| assumption].
  destruct (stir c1); [| assumption].
  destruct P_stable as (_ & _ & _ & Hstir & _). auto.
Qed.

Lemma fips_test_stable (fuel : nat) (c : rand_data) (w : World) :
  forall r c' w', jent_fips_test teb wide fuel c w = Some (r, c', w') ->
  P c -> P c'.
Proof using P_stable teb_range.
  intros r c' w'. rewrite fips_test_unfold.
  destruct P_stable as (_ & _ & _ & _ & Hold & Hfail).
  destruct (negb (fips_mode w)); [now intros [= _ <- <-] |].
  destruct (fips_fail c); [now intros [= _ <- <-] |].
  intros Hrun HP.
  assert (Hmid : forall c1 w1 u,
             (if old_data c =? 0
              then jent_gen_entropy teb wide fuel (set_old_data c (data c)) w
              else Some (tt, c, w)) = Some (u, c1, w1) -> P c1).
  { intros c1 w1 u. destruct (old_data c =? 0).
    - intros E. apply gen_entropy_stable in E; auto.
    - now intros [= _ <- <-]. }
  destruct (if old_data c =? 0 then _ else _) as [[[u c1] w1] |];
    [| discriminate].
  specialize (Hmid c1 w1 u eq_refl).
  destruct (data c1 =? old_data c1); injection Hrun as _ <- <-; auto.
Qed.

Lemma read_loop_stable (fuel n : nat) :
  forall buf p len c w r buf' c' w',
  read_loop teb wide n fuel buf p len c w = Some (r, buf', c', w') ->
  P c -> P c'.
Proof using P_stable teb_range.
  induction n as [| n IH]; intros buf p len c w r buf' c' w'.
  - cbn [read_loop]. destruct (0 <? len); [discriminate |].
    now intros [= _ _ <- <-].
  - destruct (Z.lt_ge_cases 0 len) as [Hlen | Hlen].
    + rewrite read_loop_step by assumption.
      destruct (jent_gen_entropy teb wide fuel c w) as [[[u c1] w1] |] eqn:E1;
        [| discriminate].
      destruct (jent_fips_test teb wide fuel c1 w1) as [[[r2 c2] w2] |] eqn:E2;
        [| discriminate].
      intros Hrun HP.
      apply gen_entropy_stable in E1; [| assumption].
      apply fips_test_stable in E2; [| assumption].
      destruct (0 >? r2).
      * now injection Hrun as _ _ <- <-.
      * now apply IH in Hrun.
    + rewrite read_loop_done by lia. now intros [= _ _ <- <-].
Qed.

Lemma read_entropy_stable (secure : bool) (fuel : nat) (c : rand_data)
    (buf : list Z) (len : Z) (w : World) :
  forall r buf' c' w',
  jent_read_entropy teb wide secure fuel (Some c) buf len w
  = Some (r, buf', Some c', w') ->
  P c -> P c'.
Proof using P_stable teb_range.
  intros r buf' c' w'. rewrite read_entropy_unfold.
  destruct (read_loop _ _ _ _ _ _ _ _) as [[[[r1 buf1] c1] w1] |] eqn:E;
    [| discriminate].
  intros Hrun HP. apply read_loop_stable in E; [| assumption].
  destruct (0 >? r1); [now injection Hrun as _ _ <- <- |].
  destruct secure; [now injection Hrun as _ _ <- <- |].
  destruct (jent_gen_entropy teb wide fuel c1 w1) as [[[u c2] w2] |] eqn:E2;
    [| discriminate].
  injection Hrun as _ _ <- <-. eauto using gen_entropy_stable.
Qed.

End Stable.

Lemma stable_mem_wf (teb : Z) : stable teb mem_wf.
Proof.
  unfold stable. repeat split; try (intros; assumption).
  intros c Hwf. now apply memaccess_inv.
Qed.

Lemma stir_value_range (d : Z) : in_range d -> in_range (stir_value d).
Proof.
  intros Hd. unfold stir_value.
  apply lxor_range; [assumption |].
  apply stir_loop_range, stir_mixer_range.
Qed.

Lemma stable_pool_range (teb : Z) :
  0 <= teb <= 64 -> stable teb (fun c => in_range (data c)).
Proof.
  intros Hteb. unfold stable.
  split; [| split; [| split; [| split; [| split]]]];
    try (intros; assumption).
  - intros c Hc. now rewrite (proj1 (memaccess_frame c)).
  - intros c bit Hbit Hc. cbn [data set_data].
    apply rol64_range; [| unfold DATA_SIZE_BITS; lia].
    apply lxor_range; [assumption |].
    unfold in_range, modulus, DATA_SIZE_BITS. split; [lia |].
    apply Z.lt_le_trans with (2 ^ teb); [lia |].
    apply Z.pow_le_mono_r; lia.
  - intros c Hc. unfold jent_stir_pool. cbn [data set_data].
    now apply stir_value_range.
Qed.

Lemma stable_failed (teb : Z) : stable teb (fun c => fips_fail c = true).
Proof.
  unfold stable.
  split; [| repeat split; intros; unfold jent_stir_pool; cbn; tauto].
  intros c Hc. destruct (memaccess_frame c) as (_ & _ & Hf & _).
  congruence.
Qed.

Lemma stable_settings (teb : Z) (c0 : rand_data) :
  stable teb (fun c => osr c = osr c0 /\ stir c = stir c0 /\
                       disable_unbias c = disable_unbias c0).
Proof.
  unfold stable.
  split; [| repeat split; intros; unfold jent_stir_pool; cbn; tauto].
  intros c Hc. destruct (memaccess_frame c) as (_ & _ & _ & Ho & Hs & Hd).
  intuition congruence.
Qed.

(** ** The stir step is one-to-one *)

(** X5.  The stir step maps 64-bit pools to 64-bit pools and no two of
    them to the same one: whatever the stir step leaves in the pool
    determines what was there before. *)
Theorem stir_pool_one_to_one (c1 c2 : rand_data) :
  in_range (data c1) -> in_range (data c2) ->
  in_range (data (jent_stir_pool c1)) /\
  (data (jent_stir_pool c1) = data (jent_stir_pool c2) ->
   data c1 = data c2).
Proof.
  intros H1 H2. unfold jent_stir_pool. cbn [data set_data]. split.
  - now apply stir_value_range.
  - intros Heq.
    rewrite <- (unstir_stir (data c1)), <- (unstir_stir (data c2))
      by assumption.
    now rewrite Heq.
Qed.

Lemma stir_pool_one_to_one_witness :
  in_range (data (jent_stir_pool (collector 5 0 false true false))) /\
  (data (jent_stir_pool (collector 5 0 false true false))
   = data (jent_stir_pool (collector 5 9 true true true)) ->
   data (collector 5 0 false true false)
   = data (collector 5 9 true true true)).
Proof.
  apply (stir_pool_one_to_one (collector 5 0 false true false)
           (collector 5 9 true true true));
    unfold in_range, modulus, DATA_SIZE_BITS; cbn; lia.
Defined.

(** ** What a generation pass keeps *)

(** X6.  A generation pass that returns keeps the pool a 64-bit value
    and the memory walk inside its buffer, and it touches neither the
    FIPS state ([old_data], [fips_fail]) nor the settings ([osr],
    [stir], [disable_unbias]) nor the platform's timer and FIPS mode. *)
Theorem gen_entropy_invariants
    (teb : Z) (wide : bool) (fuel : nat) (c : rand_data) (w : World)
    (u : unit) (c' : rand_data) (w' : World) :
  1 <= teb <= 64 ->
  jent_gen_entropy teb wide fuel c w = Some (u, c', w') ->
  (in_range (data c) -> in_range (data c')) /\
  (mem_wf c -> mem_wf c') /\
  same_settings c c' /\ same_platform w w'.
Proof.
  intros Hteb E.
  split; [| split].
  - apply (gen_entropy_stable teb wide Hteb (fun c => in_range (data c))
             (stable_pool_range teb ltac:(lia)) fuel c w u c' w' E).
  - apply (gen_entropy_stable teb wide Hteb mem_wf (stable_mem_wf teb)
             fuel c w u c' w' E).
  - eapply gen_entropy_frame; eassumption.
Qed.

Lemma gen_entropy_invariants_witness :
  exists c' w',
    jent_gen_entropy 1 true 1 (collector 5 0 false true true)
      (boot steady_timer true) = Some (tt, c', w') /\
    (in_range (data (collector 5 0 false true true)) ->
     in_range (data c')) /\
    (mem_wf (collector 5 0 false true true) -> mem_wf c') /\
    same_settings (collector 5 0 false true true) c' /\
    same_platform (boot steady_timer true) w'.
Proof.
  do 2 eexists. split; [vm_compute; reflexivity |].
  apply (gen_entropy_invariants 1 true 1 (collector 5 0 false true true)
           (boot steady_timer true) tt); [lia |].
  vm_compute. reflexivity.
Defined.

(** ** What the FIPS test reports *)

Lemma fips_test_outcome_aux
    (teb : Z) (wide : bool) (fuel : nat) (c : rand_data) (w : World)
    (r : Z) (c' : rand_data) (w' : World) :
  jent_fips_test teb wide fuel c w = Some (r, c', w') ->
  (r = 0 \/ r = -1) /\
  same_platform w w' /\
  (fips_mode w = false -> r = 0 /\ c' = c /\ w' = w) /\
  (fips_mode w = true ->
   (r = -1 <-> fips_fail c' = true) /\
   (r = 0 -> old_data c' = data c')).
Proof.
  rewrite fips_test_unfold.
  destruct (fips_mode w) eqn:Hmode; cbn [negb].
  2: { intros [= <- <- <-].
       repeat split; intros; auto with frame; congruence. }
  destruct (fips_fail c) eqn:Hfail.
  { intros [= <- <- <-].
    repeat split; intros; auto with frame; try congruence; lia. }
  intros Hrun.
  assert (Hmid : forall c1 w1 u,
             (if old_data c =? 0
              then jent_gen_entropy teb wide fuel (set_old_data c (data c)) w
              else Some (tt, c, w)) = Some (u, c1, w1) ->
             fips_fail c1 = false /\ same_platform w w1).
  { intros c1 w1 u. destruct (old_data c =? 0).
    - intros E. apply gen_entropy_frame in E as [(_ & Hf & _) Hp].
      split; [simpl in Hf; congruence | exact Hp].
    - intros [= _ <- <-]. split; [assumption | auto with frame]. }
  destruct (if old_data c =? 0 then _ else _) as [[[u c1] w1] |];
    [| discriminate].
  destruct (Hmid c1 w1 u eq_refl) as [Hf1 Hp1].
  destruct (data c1 =? old_data c1); injection Hrun as <- <- <-;
    cbn [fips_fail old_data data set_old_data set_fips_fail];
    repeat split; intros; auto; try congruence; try lia;
    apply Hp1.
Qed.

(** X7.  Whenever the FIPS test returns, it returns 0 or -1.  With FIPS
    mode off it returns 0 and changes nothing.  With FIPS mode on it
    returns -1 exactly when it leaves [fips_fail] set, and after a
    return of 0 [old_data] holds the pool value that was tested.  It
    never clears [fips_fail]. *)
Theorem fips_test_outcome
    (teb : Z) (wide : bool) (fuel : nat) (c : rand_data) (w : World)
    (r : Z) (c' : rand_data) (w' : World) :
  1 <= teb <= 64 ->
  jent_fips_test teb wide fuel c w = Some (r, c', w') ->
  (r = 0 \/ r = -1) /\
  (fips_fail c = true -> fips_fail c' = true) /\
  (fips_mode w = false -> r = 0 /\ c' = c /\ w' = w) /\
  (fips_mode w = true ->
   (r = -1 <-> fips_fail c' = true) /\
   (r = 0 -> old_data c' = data c')).
Proof.
  intros Hteb E.
  pose proof (fips_test_outcome_aux teb wide fuel c w r c' w' E)
    as (Hr & _ & Hoff & Hon).
  split; [exact Hr |]. split; [| tauto].
  apply (fips_test_stable teb wide Hteb (fun c => fips_fail c = true)
           (stable_failed teb) fuel c w r c' w' E).
Qed.

Lemma fips_test_outcome_witness :
  exists c' w',
    jent_fips_test 1 true 1 (collector 5 0 false true true)
      (boot steady_timer true) = Some (0, c', w') /\
    (0 = 0 \/ 0 = -1) /\
    (fips_fail (collector 5 0 false true true) = true ->
     fips_fail c' = true) /\
    (fips_mode (boot steady_timer true) = false ->
     0 = 0 /\ c' = collector 5 0 false true true /\
     w' = boot steady_timer true) /\
    (fips_mode (boot steady_timer true) = true ->
     (0 = -1 <-> fips_fail c' = true) /\
     (0 = 0 -> old_data c' = data c')).
Proof.
  do 2 eexists. split; [vm_compute; reflexivity |].
  apply (fips_test_outcome 1 true 1 (collector 5 0 false true true)
           (boot steady_timer true)); [lia |].
  vm_compute. reflexivity.
Defined.

(** ** What a read reports and what it does to the buffer *)

Lemma to_int_small (x : Z) : 0 <= x < 2 ^ 31 -> U32.to_int x = x.
Proof.
  intros Hx. unfold U32.to_int, U32.modulus.
  change (2 ^ 31) with 2147483648 in *. change (2 ^ 32) with 4294967296.
  rewrite Z.mod_small; lia.
Qed.

Lemma read_loop_outcome (teb : Z) (wide : bool) (fuel n : nat) :
  forall buf p len c w r buf' c' w',
  read_loop teb wide n fuel buf p len c w = Some (r, buf', c', w') ->
  same_platform w w' /\
  (r = 0 \/ (r = -1 /\ fips_mode w = true /\ fips_fail c' = true)).
Proof.
  induction n as [| n IH]; intros buf p len c w r buf' c' w'.
  - cbn [read_loop]. destruct (0 <? len); [discriminate |].
    intros [= <- _ _ <-]. auto with frame.
  - destruct (Z.lt_ge_cases 0 len) as [Hlen | Hlen].
    2: { rewrite read_loop_done by lia. intros [= <- _ _ <-].
         auto with frame. }
    rewrite read_loop_step by assumption.
    destruct (jent_gen_entropy teb wide fuel c w) as [[[u c1] w1] |] eqn:E1;
      [| discriminate].
    destruct (jent_fips_test teb wide fuel c1 w1) as [[[r2 c2] w2] |] eqn:E2;
      [| discriminate].
    apply gen_entropy_frame in E1 as [_ P1].
    apply fips_test_outcome_aux in E2 as (Hr2 & P2 & Hoff & Hon).
    assert (P12 : same_platform w w2)
      by (eapply same_platform_trans; eassumption).
    assert (Hmode : fips_mode w1 = fips_mode w) by apply P1.
    destruct Hr2 as [-> | ->].
    + change (0 >? 0) with false. cbv iota. intros Hrun.
      apply IH in Hrun as [P3 Hr].
      split; [eapply same_platform_trans; eassumption |].
      destruct Hr as [-> | (-> & Hm & Hf)]; [now left | right].
      repeat split; try assumption.
      destruct P12 as [_ Hm2]. congruence.
    + change (0 >? -1) with true. cbv iota. intros [= <- _ <- <-].
      split; [assumption | right].
      destruct (fips_mode w1) eqn:Hm1.
      * destruct (Hon eq_refl) as [Hiff _].
        repeat split; [congruence | now apply Hiff].
      * destruct (Hoff eq_refl) as [Hr0 _]. discriminate.
Qed.

(** X8.  A read on a collector that returns gives back either the
    requested length or -1, and -1 only in FIPS mode and with
    [fips_fail] set on return.  Whatever it gives back, it never clears
    [fips_fail], it keeps the pool a 64-bit value and the memory walk
    inside its buffer, and it leaves [osr], [stir], [disable_unbias],
    the timer and the FIPS mode as they were. *)
Theorem read_entropy_outcome
    (teb : Z) (wide : bool) (secure : bool) (fuel : nat) (c : rand_data)
    (buf : list Z) (len : Z) (w : World)
    (r : Z) (buf' : list Z) (c' : rand_data) (w' : World) :
  1 <= teb <= 64 -> 0 <= len < 2 ^ 31 ->
  jent_read_entropy teb wide secure fuel (Some c) buf len w
  = Some (r, buf', Some c', w') ->
  (r = len \/ (r = -1 /\ fips_mode w = true /\ fips_fail c' = true)) /\
  (fips_fail c = true -> fips_fail c' = true) /\
  (in_range (data c) -> in_range (data c')) /\
  (mem_wf c -> mem_wf c') /\
  (osr c' = osr c /\ stir c' = stir c /\
   disable_unbias c' = disable_unbias c) /\
  same_platform w w'.
Proof.
  intros Hteb Hlen E.
  assert (Hout : (r = len \/
                  (r = -1 /\ fips_mode w = true /\ fips_fail c' = true)) /\
                 same_platform w w').
  { revert E. rewrite read_entropy_unfold.
    destruct (read_loop _ _ _ _ _ _ _ _) as [[[[r1 buf1] c1] w1] |] eqn:E1;
      [| discriminate].
    apply read_loop_outcome in E1 as [P1 Hr1].
    destruct Hr1 as [-> | (-> & Hm & Hf)].
    - change (0 >? 0) with false. cbv iota.
      rewrite to_int_small by assumption.
      destruct secure; [intros [= <- _ <- <-]; auto |].
      destruct (jent_gen_entropy teb wide fuel c1 w1) as [[[u c2] w2] |] eqn:E2;
        [| discriminate].
      apply gen_entropy_frame in E2 as [_ P2].
      intros [= <- _ <- <-].
      split; [now left | eapply same_platform_trans; eassumption].
    - change (0 >? -1) with true. cbv iota. intros [= <- _ <- <-]. auto. }
  destruct Hout as [Hr Hp].
  split; [exact Hr |].
  split; [apply (read_entropy_stable teb wide Hteb _ (stable_failed teb)
                   secure fuel c buf len w r buf' c' w' E) |].
  split; [apply (read_entropy_stable teb wide Hteb _
                   (stable_pool_range teb ltac:(lia))
                   secure fuel c buf len w r buf' c' w' E) |].
  split; [apply (read_entropy_stable teb wide Hteb _ (stable_mem_wf teb)
                   secure fuel c buf len w r buf' c' w' E) |].
  split; [| exact Hp].
  apply (read_entropy_stable teb wide Hteb _ (stable_settings teb c)
           secure fuel c buf len w r buf' c' w' E).
  auto.
Qed.

Lemma read_entropy_outcome_witness :
  exists buf' c' w',
    jent_read_entropy 1 true false 1 (Some (collector 5 0 false true true))
      [0; 0; 0; 0; 0; 0; 0; 0; 0; 0] 10 (boot steady_timer false)
    = Some (10, buf', Some c', w') /\
    (10 = 10 \/
     (10 = -1 /\ fips_mode (boot steady_timer false) = true /\
      fips_fail c' = true)) /\
    (fips_fail (collector 5 0 false true true) = true ->
     fips_fail c' = true) /\
    (in_range (data (collector 5 0 false true true)) ->
     in_range (data c')) /\
    (mem_wf (collector 5 0 false true true) -> mem_wf c') /\
    (osr c' = osr (collector 5 0 false true true) /\
     stir c' = stir (collector 5 0 false true true) /\
     disable_unbias c'
     = disable_unbias (collector 5 0 false true true)) /\
    same_platform (boot steady_timer false) w'.
Proof.
  do 3 eexists. split; [vm_compute; reflexivity |].
  eapply (read_entropy_outcome 1 true false 1 (collector 5 0 false true true)
            [0; 0; 0; 0; 0; 0; 0; 0; 0; 0] 10 (boot steady_timer false));
    [lia | lia |].
  vm_compute. reflexivity.
Defined.

(** *** The caller's buffer *)

Lemma pool_bytes_length (v : Z) (n : nat) : length (pool_bytes v n) = n.
Proof. unfold pool_bytes. now rewrite length_map, length_seq. Qed.

Lemma pool_bytes_are_bytes (v : Z) (n : nat) :
  Forall is_byte (pool_bytes v n).
Proof.
  unfold pool_bytes. apply List.Forall_forall. intros b Hb.
  apply in_map_iff in Hb as (i & <- & _).
  unfold is_byte. change 255 with (Z.ones 8).
  rewrite Z.land_ones by lia. apply Z.mod_pos_bound. reflexivity.
Qed.

Lemma memcpy_length (buf : list Z) (p : nat) (v : Z) (n : nat) :
  (p + n <= length buf)%nat -> length (memcpy buf p v n) = length buf.
Proof.
  intros Hfit. unfold memcpy.
  rewrite !length_app, length_take, pool_bytes_length, length_drop. lia.
Qed.

Lemma memcpy_outside (buf : list Z) (p : nat) (v : Z) (n i : nat) :
  (p + n <= length buf)%nat -> (i < p \/ p + n <= i)%nat ->
  memcpy buf p v n !! i = buf !! i.
Proof.
  intros Hfit Hi. unfold memcpy.
  destruct Hi as [Hlow | Hhigh].
  - rewrite lookup_app_l by (rewrite length_take; lia).
    now apply lookup_take_lt.
  - rewrite lookup_app_r by (rewrite length_take; lia).
    rewrite lookup_app_r by (rewrite length_take, pool_bytes_length; lia).
    rewrite lookup_drop, length_take, pool_bytes_length. f_equal. lia.
Qed.

Lemma memcpy_are_bytes (buf : list Z) (p : nat) (v : Z) (n : nat) :
  Forall is_byte buf -> Forall is_byte (memcpy buf p v n).
Proof.
  intros Hbuf. unfold memcpy.
  apply Forall_app. split; [now apply Forall_take |].
  apply Forall_app. split; [apply pool_bytes_are_bytes |].
  now apply Forall_drop.
Qed.

Lemma read_loop_buffer (teb : Z) (wide : bool) (fuel n : nat) :
  forall buf p len c w r buf' c' w',
  (p + Z.to_nat len <= length buf)%nat ->
  read_loop teb wide n fuel buf p len c w = Some (r, buf', c', w') ->
  length buf' = length buf /\
  (forall i, (i < p \/ p + Z.to_nat len <= i)%nat ->
     buf' !! i = buf !! i) /\
  (Forall is_byte buf -> Forall is_byte buf').
Proof.
  induction n as [| n IH]; intros buf p len c w r buf' c' w' Hfit.
  - cbn [read_loop]. destruct (0 <? len); [discriminate |].
    intros [= _ <- _ _]. auto.
  - destruct (Z.lt_ge_cases 0 len) as [Hlen | Hlen].
    2: { rewrite read_loop_done by lia. intros [= _ <- _ _]. auto. }
    rewrite read_loop_step by assumption.
    destruct (jent_gen_entropy teb wide fuel c w) as [[[u c1] w1] |];
      [| discriminate].
    destruct (jent_fips_test teb wide fuel c1 w1) as [[[r2 c2] w2] |];
      [| discriminate].
    destruct (0 >? r2); [intros [= _ <- _ _]; auto |].
    cbv zeta.
    set (tocopy := if 8 <? len then 8 else len).
    assert (Hcopy : 0 < tocopy <= len)
      by (unfold tocopy; destruct (Z.ltb_spec 8 len); lia).
    intros Hrun.
    assert (Hfit1 : (p + Z.to_nat tocopy <= length buf)%nat) by lia.
    apply IH in Hrun as (L & Hout & Hbytes);
      [| rewrite memcpy_length by assumption; lia].
    rewrite memcpy_length in L by assumption.
    split; [exact L |]. split.
    + intros i Hi. rewrite Hout by lia.
      apply memcpy_outside; [assumption | lia].
    + intros Hb. apply Hbytes. now apply memcpy_are_bytes.
Qed.

(** X9.  A read of [len] bytes into a buffer that has room for them
    leaves the buffer's size as it is and writes nothing behind the
    first [len] bytes, whatever it returns; and what it writes are
    bytes. *)
Theorem read_entropy_buffer
    (teb : Z) (wide : bool) (secure : bool) (fuel : nat) (ec : option rand_data)
    (buf : list Z) (len : Z) (w : World)
    (r : Z) (buf' : list Z) (ec' : option rand_data) (w' : World) :
  0 <= len <= Z.of_nat (length buf) ->
  jent_read_entropy teb wide secure fuel ec buf len w
  = Some (r, buf', ec', w') ->
  length buf' = length buf /\
  (forall i, (Z.to_nat len <= i)%nat -> buf' !! i = buf !! i) /\
  (Forall is_byte buf -> Forall is_byte buf').
Proof.
  intros Hlen. destruct ec as [c |].
  2: { cbn [jent_read_entropy]. intros [= _ <- _ _]. auto. }
  rewrite read_entropy_unfold.
  destruct (read_loop _ _ _ _ _ _ _ _) as [[[[r1 buf1] c1] w1] |] eqn:E;
    [| discriminate].
  apply read_loop_buffer in E as (L & Hout & Hbytes); [| lia].
  assert (Hres : buf' = buf1 ->
                 length buf' = length buf /\
                 (forall i, (Z.to_nat len <= i)%nat ->
                    buf' !! i = buf !! i) /\
                 (Forall is_byte buf -> Forall is_byte buf')).
  { intros ->. split; [exact L |]. split; [| exact Hbytes].
    intros i Hi. apply Hout. lia. }
  destruct (0 >? r1); [intros [= _ <- _ _]; auto |].
  destruct secure; [intros [= _ <- _ _]; auto |].
  destruct (jent_gen_entropy teb wide fuel c1 w1) as [[[u c2] w2] |];
    [| discriminate].
  intros [= _ <- _ _]. auto.
Qed.

Lemma read_entropy_buffer_witness :
  exists buf' ec' w',
    jent_read_entropy 1 true false 1 (Some (collector 5 0 false true true))
      [300; 0; 0; 0; 0; 0; 0; 0; 0; 0; 77; 999] 10
      (boot steady_timer false)
    = Some (10, buf', ec', w') /\
    length buf' = length [300; 0; 0; 0; 0; 0; 0; 0; 0; 0; 77; 999] /\
    (forall i, (Z.to_nat 10 <= i)%nat ->
       buf' !! i = [300; 0; 0; 0; 0; 0; 0; 0; 0; 0; 77; 999] !! i) /\
    (Forall is_byte [300; 0; 0; 0; 0; 0; 0; 0; 0; 0; 77; 999] ->
     Forall is_byte buf').
Proof.
  do 3 eexists. split; [vm_compute; reflexivity |].
  eapply (read_entropy_buffer 1 true false 1
            (Some (collector 5 0 false true true))
            [300; 0; 0; 0; 0; 0; 0; 0; 0; 0; 77; 999] 10
            (boot steady_timer false)); [cbn; lia |].
  vm_compute. reflexivity.
Defined.

(** *** The bytes handed out *)

Lemma bytes_value_windows (v : Z) (n k : nat) :
  0 <= v ->
  bytes_value (map (fun i => Z.land (shr v (8 * Z.of_nat i)) 255) (seq k n))
  = (v / 256 ^ Z.of_nat k) mod 256 ^ Z.of_nat n.
Proof.
  intros Hv. revert k. induction n as [| n IH]; intros k.
  - cbn. now rewrite Z.mod_1_r.
  - cbn [seq map bytes_value fold_right].
    change (fold_right (fun b acc => b + 256 * acc) 0 ?l)
      with (bytes_value l).
    rewrite IH. unfold shr.
    change 255 with (Z.ones 8). rewrite Z.land_ones by lia.
    rewrite Z.shiftr_div_pow2 by lia.
    replace (2 ^ (8 * Z.of_nat k)) with (256 ^ Z.of_nat k)
      by (rewrite Z.pow_mul_r by lia; reflexivity).
    change (2 ^ 8) with 256.
    assert (Hk : 0 < 256 ^ Z.of_nat k) by (apply Z.pow_pos_nonneg; lia).
    assert (Hn : 0 < 256 ^ Z.of_nat n) by (apply Z.pow_pos_nonneg; lia).
    replace (Z.of_nat (S k)) with (Z.of_nat k + 1) by lia.
    replace (Z.of_nat (S n)) with (1 + Z.of_nat n) by lia.
    rewrite !Z.pow_add_r, !Z.pow_1_r by lia.
    rewrite <- Z.div_div by lia.
    rewrite Z.rem_mul_r by lia. reflexivity.
Qed.

(** The bytes that [memcpy] takes out of the pool have the value of the
    pool, cut to their number. *)
Lemma bytes_value_pool_bytes (v : Z) (n : nat) :
  0 <= v -> bytes_value (pool_bytes v n) = v mod 256 ^ Z.of_nat n.
Proof.
  intros Hv. unfold pool_bytes. rewrite bytes_value_windows by assumption.
  now rewrite Z.pow_0_r, Z.div_1_r.
Qed.

(** X10.  In FIPS mode the bytes that a successful read of 1 to 8 bytes
    hands out are the low bytes of what the collector keeps in
    [old_data] for the next continuous test (all of it for 8 bytes): the
    next output is compared with the very value that was given out. *)
Theorem read_hands_out_old_data
    (teb : Z) (wide : bool) (secure : bool) (fuel : nat) (c : rand_data)
    (buf : list Z) (len : Z) (w : World)
    (buf' : list Z) (c' : rand_data) (w' : World) :
  1 <= teb <= 64 -> fips_mode w = true -> in_range (data c) ->
  1 <= len <= 8 -> len <= Z.of_nat (length buf) ->
  jent_read_entropy teb wide secure fuel (Some c) buf len w
  = Some (len, buf', Some c', w') ->
  bytes_value (take (Z.to_nat len) buf') = old_data c' mod 256 ^ len /\
  in_range (old_data c').
Proof.
  intros Hteb Hmode Hrange Hlen Hfit.
  rewrite read_entropy_unfold.
  destruct (Z.to_nat len) as [| n] eqn:En; [lia |].
  rewrite read_loop_step by lia.
  destruct (jent_gen_entropy teb wide fuel c w) as [[[u c1] w1] |] eqn:E1;
    [| discriminate].
  destruct (jent_fips_test teb wide fuel c1 w1) as [[[r2 c2] w2] |] eqn:E2;
    [| discriminate].
  pose proof (gen_entropy_stable teb wide Hteb _
                (stable_pool_range teb ltac:(lia)) fuel c w u c1 w1 E1
                Hrange) as Hr1.
  pose proof (fips_test_stable teb wide Hteb _
                (stable_pool_range teb ltac:(lia)) fuel c1 w1 r2 c2 w2 E2
                Hr1) as Hr2.
  apply gen_entropy_frame in E1 as [_ [_ Hm1]].
  apply fips_test_outcome_aux in E2 as (Hres & _ & _ & Hon).
  destruct (Hon ltac:(congruence)) as [_ Hold].
  destruct Hres as [-> | ->].
  2: { change (0 >? -1) with true. cbv iota. intros [= Hbad _ _ _]. lia. }
  specialize (Hold eq_refl).
  change (0 >? 0) with false. cbv iota zeta.
  replace (8 <? len) with false by (symmetry; apply Z.ltb_ge; lia).
  rewrite read_loop_done by lia. change (0 >? 0) with false. cbv iota.
  assert (Hval : bytes_value
                   (take (S n) (memcpy buf 0 (data c2) (Z.to_nat len)))
                 = old_data c2 mod 256 ^ len /\ in_range (old_data c2)).
  { rewrite Hold. split; [| assumption].
    unfold memcpy. rewrite take_0, app_nil_l, En.
    rewrite take_app_length' by (now rewrite pool_bytes_length).
    rewrite bytes_value_pool_bytes by apply Hr2.
    f_equal. f_equal. lia. }
  destruct secure; [intros [= _ <- <- _]; exact Hval |].
  destruct (jent_gen_entropy teb wide fuel c2 w2) as [[[u3 c3] w3] |] eqn:E3;
    [| discriminate].
  apply gen_entropy_frame in E3 as [(Ho3 & _) _].
  intros [= _ <- <- _]. now rewrite Ho3.
Qed.

Lemma read_hands_out_old_data_witness :
  exists buf' c' w',
    jent_read_entropy 1 true false 1 (Some (collector 5 0 false true true))
      [0; 0; 0; 0; 0; 0; 0; 0] 8 (boot steady_timer true)
    = Some (8, buf', Some c', w') /\
    bytes_value (take (Z.to_nat 8) buf') = old_data c' mod 256 ^ 8 /\
    in_range (old_data c').
Proof.
  do 3 eexists. split; [vm_compute; reflexivity |].
  eapply (read_hands_out_old_data 1 true false 1
            (collector 5 0 false true true) [0; 0; 0; 0; 0; 0; 0; 0] 8
            (boot steady_timer true));
    [lia | reflexivity
     | unfold in_range, modulus, DATA_SIZE_BITS; cbn; lia
     | lia | cbn; lia |].
  vm_compute. reflexivity.
Defined.

(** ** Allocation *)

Lemma stable_no_mem (teb : Z) : stable teb (fun c => mem c = None).
Proof.
  unfold stable.
  split; [| repeat split; intros; unfold jent_stir_pool; cbn; assumption].
  intros c Hc. unfold jent_memaccess. now rewrite Hc.
Qed.

Lemma stable_has_mem (teb : Z) : stable teb (fun c => mem c <> None).
Proof.
  unfold stable.
  split; [| repeat split; intros; unfold jent_stir_pool; cbn; assumption].
  intros c Hc. unfold jent_memaccess.
  destruct (mem c) as [m |]; [| congruence].
  destruct (Nat.iter _ _ _) as [m' loc']. discriminate.
Qed.

Section Allocation.

Variable teb : Z.
Variable wide : bool.
Variable memory_size blocksize blocks accessloops : Z.
Variable disable_stir_bit disable_unbias_bit disable_mem_bit : Z.
Hypothesis teb_range : 1 <= teb <= 64.

(** The collector as [alloc] sets it up, and what it runs on it. *)
Lemma alloc_unfold (fuel : nat) (osr0 flags : Z) (struct_ok mem_ok : bool)
    (w : World) :
  forall c' w',
  jent_entropy_collector_alloc teb wide memory_size blocksize blocks
    accessloops disable_stir_bit disable_unbias_bit disable_mem_bit
    fuel osr0 flags struct_ok mem_ok w = Some (Some c', w') ->
  struct_ok = true /\
  (flag_set flags disable_mem_bit = false -> mem_ok = true) /\
  exists c0 c1 w1 r u,
    data c0 = 0 /\ old_data c0 = 0 /\ fips_fail c0 = false /\
    osr c0 = (if 0 =? osr0 then 1 else osr0) /\
    stir c0 = negb (flag_set flags disable_stir_bit) /\
    disable_unbias c0 = flag_set flags disable_unbias_bit /\
    (mem c0 = None <-> flag_set flags disable_mem_bit = true) /\
    jent_gen_entropy teb wide fuel c0 w = Some (u, c1, w1) /\
    jent_fips_test teb wide fuel c1 w1 = Some (r, c', w').
Proof.
  intros c' w'. unfold jent_entropy_collector_alloc.
  destruct struct_ok; cbn [negb]; [| discriminate].
  destruct (flag_set flags disable_mem_bit) eqn:Fm; cbn [negb].
  - set (c0 := mk_rand_data 0 0 0 false _ _ _ None 0 0 0 0).
    unfold bind.
    destruct (jent_gen_entropy teb wide fuel c0 w) as [[[u c1] w1] |] eqn:E1;
      [| discriminate].
    destruct (jent_fips_test teb wide fuel c1 w1) as [[[r c2] w2] |] eqn:E2;
      [| discriminate].
    intros [= <- <-]. split; [reflexivity |]. split; [discriminate |].
    exists c0, c1, w1, r, u. subst c0. cbn.
    repeat split; intros; try reflexivity; try discriminate;
      try assumption;
      try (now destruct (flag_set flags disable_stir_bit));
      now destruct (flag_set flags disable_unbias_bit).
  - destruct mem_ok; cbn [negb]; [| discriminate].
    set (c0 := mk_rand_data 0 0 0 false _ _ _ (Some _) 0 _ _ _).
    unfold bind.
    destruct (jent_gen_entropy teb wide fuel c0 w) as [[[u c1] w1] |] eqn:E1;
      [| discriminate].
    destruct (jent_fips_test teb wide fuel c1 w1) as [[[r c2] w2] |] eqn:E2;
      [| discriminate].
    intros [= <- <-]. split; [reflexivity |]. split; [reflexivity |].
    exists c0, c1, w1, r, u. subst c0. cbn.
    repeat split; intros; try reflexivity; try discriminate;
      try assumption;
      try (now destruct (flag_set flags disable_stir_bit));
      now destruct (flag_set flags disable_unbias_bit).
Qed.

(** X11.  A collector that [jent_entropy_collector_alloc] hands out has
    an oversampling rate of at least 1 (a requested 0 is raised to 1),
    stirs unless the stir flag disables it, unbiases unless the unbias
    flag disables it, has a memory buffer exactly when the memory flag
    does not disable it, and holds a 64-bit pool.  In FIPS mode it
    either has [old_data] equal to the pool or comes with [fips_fail]
    already set: allocation does not report a failed FIPS test. *)
Theorem alloc_collector_settings
    (fuel : nat) (osr0 flags : Z) (struct_ok mem_ok : bool) (w : World)
    (c' : rand_data) (w' : World) :
  0 <= osr0 ->
  jent_entropy_collector_alloc teb wide memory_size blocksize blocks
    accessloops disable_stir_bit disable_unbias_bit disable_mem_bit
    fuel osr0 flags struct_ok mem_ok w = Some (Some c', w') ->
  1 <= osr c' /\ osr c' = (if 0 =? osr0 then 1 else osr0) /\
  stir c' = negb (flag_set flags disable_stir_bit) /\
  disable_unbias c' = flag_set flags disable_unbias_bit /\
  (mem c' = None <-> flag_set flags disable_mem_bit = true) /\
  in_range (data c') /\
  (fips_mode w = true -> fips_fail c' = true \/ old_data c' = data c') /\
  same_platform w w'.
Proof using teb_range.
  intros Hosr E.
  apply alloc_unfold in E
    as (_ & _ & c0 & c1 & w1 & r & u & Hd & Ho & Hf & Hosr0 & Hs & Hu & Hm
        & E1 & E2).
  assert (Hkeep : forall P : rand_data -> Prop, stable teb P -> P c0 -> P c').
  { intros P HP H0.
    eapply fips_test_stable; [exact teb_range | exact HP | exact E2 |].
    eapply gen_entropy_stable; [exact teb_range | exact HP | exact E1 |].
    exact H0. }
  pose proof (Hkeep _ (stable_settings teb c0)
                (conj eq_refl (conj eq_refl eq_refl))) as (Ko & Ks & Ku).
  pose proof (Hkeep _ (stable_pool_range teb ltac:(lia))) as Kr.
  apply gen_entropy_frame in E1 as [_ P1].
  apply fips_test_outcome_aux in E2 as (Hr & P2 & _ & Hon).
  rewrite Ko, Ks, Ku, Hosr0, Hs, Hu.
  split; [destruct (Z.eqb_spec 0 osr0); lia |].
  split; [reflexivity |]. split; [reflexivity |]. split; [reflexivity |].
  split.
  { split.
    - intros Hnone. destruct (flag_set flags disable_mem_bit) eqn:Fm;
        [reflexivity |].
      assert (Hhas : mem c0 <> None) by (rewrite Hm; discriminate).
      now apply (Hkeep _ (stable_has_mem teb)) in Hhas.
    - intros Fm. apply (Hkeep _ (stable_no_mem teb)). now apply Hm. }
  split.
  { apply Kr. rewrite Hd. unfold in_range, modulus, DATA_SIZE_BITS. lia. }
  split; [| eapply same_platform_trans; eassumption].
  intros Hmode.
  destruct (Hon ltac:(destruct P1; congruence)) as [Hiff Hold].
  destruct Hr as [-> | ->]; [right; now apply Hold | left; now apply Hiff].
Qed.

(** X12.  [jent_entropy_collector_alloc] hands back NULL exactly when
    the allocator refuses the collector, or refuses the memory buffer
    while memory access is not disabled by the flag; it has then taken
    no reading off the timer and run no generation pass. *)
Theorem alloc_null_iff_refused
    (fuel : nat) (osr0 flags : Z) (struct_ok mem_ok : bool) (w : World) :
  (jent_entropy_collector_alloc teb wide memory_size blocksize blocks
     accessloops disable_stir_bit disable_unbias_bit disable_mem_bit
     fuel osr0 flags struct_ok mem_ok w = Some (None, w)
   <->
   (struct_ok = false \/
    (flag_set flags disable_mem_bit = false /\ mem_ok = false))) /\
  (forall w',
     jent_entropy_collector_alloc teb wide memory_size blocksize blocks
       accessloops disable_stir_bit disable_unbias_bit disable_mem_bit
       fuel osr0 flags struct_ok mem_ok w = Some (None, w') ->
     w' = w).
Proof.
  unfold jent_entropy_collector_alloc.
  destruct struct_ok; cbn [negb].
  2: { split; [split; auto | now intros w' [= <-]]. }
  destruct (flag_set flags disable_mem_bit); cbn [negb].
  - destruct (bind _ _ _ _) as [[[r c2] w2] |];
      (split; [split; [discriminate | intros [? | [? ?]]; discriminate]
              | discriminate]).
  - destruct mem_ok; cbn [negb].
    + destruct (bind _ _ _ _) as [[[r c2] w2] |];
        (split; [split; [discriminate | intros [? | [? ?]]; discriminate]
                | discriminate]).
    + split; [split; auto | now intros w' [= <-]].
Qed.

End Allocation.

Lemma alloc_null_iff_refused_witness :
  jent_entropy_collector_alloc 1 true 6 3 2 2 1 2 4 1 0 2 true false
    (boot steady_timer true) = Some (None, boot steady_timer true).
Proof.
  apply (proj2 (proj1 (alloc_null_iff_refused 1 true 6 3 2 2 1 2 4 1 0 2
                         true false (boot steady_timer true)))).
  right. split; reflexivity.
Defined.

Lemma alloc_collector_settings_witness :
  exists c' w',
    jent_entropy_collector_alloc 1 true 6 3 2 2 1 2 4 1 0 2 true true
      (boot steady_timer true) = Some (Some c', w') /\
    1 <= osr c' /\ osr c' = (if 0 =? 0 then 1 else 0) /\
    stir c' = negb (flag_set 2 1) /\
    disable_unbias c' = flag_set 2 2 /\
    (mem c' = None <-> flag_set 2 4 = true) /\
    in_range (data c') /\
    (fips_mode (boot steady_timer true) = true ->
     fips_fail c' = true \/ old_data c' = data c') /\
    same_platform (boot steady_timer true) w'.
Proof.
  do 2 eexists. split; [vm_compute; reflexivity |].
  eapply (alloc_collector_settings 1 true 6 3 2 2 1 2 4 ltac:(lia) 1 0 2
            true true (boot steady_timer true)); [lia |].
  vm_compute. reflexivity.
Defined.

(** ** The startup test, round by round *)

Lemma fold_time_world (teb : Z) (ec : option rand_data) (t l : Z)
    (w : World) :
  snd (jent_fold_time teb ec t l w)
  = mk_World (timer w) (S (ticks w)) (fips_mode w) (measured w).
Proof. reflexivity. Qed.

Lemma reading_0 (w : World) : reading w 0 = wrap (timer w (ticks w)).
Proof. unfold reading. now rewrite Nat.add_0_r. Qed.

Lemma reading_2 (w : World) :
  reading w 2 = wrap (timer w (S (S (ticks w)))).
Proof. unfold reading. do 2 f_equal. lia. Qed.

(** The loop body on the two readings it takes. *)
Lemma init_body_unfold (teb i : Z) (v : init_vars) (w : World) :
  init_body teb i v w =
  let time := reading w 0 in
  let time2 := reading w 2 in
  let w3 := mk_World (timer w) (S (S (S (ticks w)))) (fips_mode w)
              (measured w) in
  if (time =? 0) || (time2 =? 0) then inl ENOTIME
  else
    let delta := wrap (time2 - time) in
    if delta =? 0 then inl ECOARSETIME
    else if teb >? delta then inl EMINVARIATION
    else if CLEARCACHE >? i then inr (v, w3)
    else
      inr (mk_init_vars
             (if negb (i =? 0)
              then (if delta >? old_delta v
                    then wrap (delta_sum v + (delta - old_delta v))
                    else wrap (delta_sum v + (old_delta v - delta)))
              else delta_sum v)
             delta
             (if negb (time2 >? time) then time_backwards v + 1
              else time_backwards v)
             (if negb (i =? 0)
              then (if negb (delta =? old_delta v) then count_var v + 1
                    else count_var v)
              else count_var v)
             (if delta mod 100 =? 0 then count_mod v + 1
              else count_mod v),
           w3).
Proof.
  rewrite reading_0, reading_2. unfold init_body, jent_get_nstime.
  pose proof (fold_time_world teb None (wrap (timer w (ticks w)))
                (Z.shiftl 1 MIN_FOLD_LOOP_BIT)
                (mk_World (timer w) (S (ticks w)) (fips_mode w)
                   (measured w))) as Hw.
  destruct (jent_fold_time teb None _ _ _) as [[folded cnt] w2].
  cbn [snd timer ticks fips_mode measured] in Hw. subst w2.
  cbn [timer ticks fips_mode measured]. cbv zeta.
  destruct (_ || _); [reflexivity |].
  destruct (_ =? 0); [reflexivity |].
  destruct (teb >? _); [reflexivity |].
  destruct (CLEARCACHE >? i); [reflexivity |].
  now destruct (negb (i =? 0)).
Qed.

Lemma init_loop_succ (teb : Z) (n : nat) (i : Z) (v : init_vars)
    (w : World) :
  init_loop teb (S n) i v w =
  match init_body teb i v w with
  | inl e => inl e
  | inr (v', w') => init_loop teb n (i + 1) v' w'
  end.
Proof. reflexivity. Qed.

Lemma init_first_round_error (teb : Z) (w : World) (e : init_result) :
  init_body teb 0 init_vars0 w = inl e -> jent_entropy_init teb w = e.
Proof.
  intros H. unfold jent_entropy_init.
  change (Z.to_nat (TESTLOOPCOUNT + CLEARCACHE)) with (S 399).
  now rewrite init_loop_succ, H.
Qed.

(** X13.  What the first two readings of the startup test decide:
    if one of them is 0 the test returns ENOTIME; if they are equal (and
    not 0) it returns ECOARSETIME; if they differ by less than
    [TIME_ENTROPY_BITS] it returns EMINVARIATION.  The readings are the
    first and the third of the timer, the fold in between taking one. *)
Theorem init_first_round (teb : Z) (w : World) :
  (reading w 0 = 0 \/ reading w 2 = 0 ->
   jent_entropy_init teb w = ENOTIME) /\
  (reading w 0 <> 0 -> reading w 2 = reading w 0 ->
   jent_entropy_init teb w = ECOARSETIME) /\
  (reading w 0 <> 0 -> reading w 2 <> 0 ->
   0 < round_delta w 0 < teb ->
   jent_entropy_init teb w = EMINVARIATION).
Proof.
  unfold round_delta. cbn [Nat.mul Nat.add].
  split; [| split].
  - intros Hzero. apply init_first_round_error.
    rewrite init_body_unfold. cbv zeta.
    replace ((reading w 0 =? 0) || (reading w 2 =? 0)) with true;
      [reflexivity |].
    symmetry. apply orb_true_iff.
    destruct Hzero as [-> | ->]; [left | right]; reflexivity.
  - intros H0 Heq. apply init_first_round_error.
    rewrite init_body_unfold. cbv zeta. rewrite Heq.
    replace (reading w 0 =? 0) with false
      by (symmetry; now apply Z.eqb_neq).
    cbn [orb]. rewrite Z.sub_diag. reflexivity.
  - intros H0 H2 Hdelta. apply init_first_round_error.
    rewrite init_body_unfold. cbv zeta.
    replace (reading w 0 =? 0) with false
      by (symmetry; now apply Z.eqb_neq).
    replace (reading w 2 =? 0) with false
      by (symmetry; now apply Z.eqb_neq).
    cbn [orb].
    replace (wrap (reading w 2 - reading w 0) =? 0) with false
      by (symmetry; apply Z.eqb_neq; lia).
    replace (teb >? wrap (reading w 2 - reading w 0)) with true
      by (symmetry; rewrite Z.gtb_ltb; apply Z.ltb_lt; lia).
    reflexivity.
Qed.

Lemma init_first_round_witness :
  jent_entropy_init 1 (boot stuck_timer false) = ECOARSETIME.
Proof.
  apply (proj1 (proj2 (init_first_round 1 (boot stuck_timer false)))).
  - now vm_compute.
  - reflexivity.
Defined.

(** *** Counting rounds *)

Lemma count_upto_ext (g h : nat -> bool) (n : nat) :
  (forall j, (j < n)%nat -> g j = h j) -> count_upto g n = count_upto h n.
Proof.
  induction n as [| n IH]; intros Hgh; [reflexivity |].
  cbn [count_upto]. rewrite IH by (intros j Hj; apply Hgh; lia).
  rewrite (Hgh n) by lia. reflexivity.
Qed.

Lemma count_upto_shift (g : nat -> bool) (n : nat) :
  count_upto g (S n)
  = (if g O then 1 else 0) + count_upto (fun j => g (S j)) n.
Proof.
  induction n as [| n IH]; [cbn [count_upto]; lia |].
  change (count_upto g (S (S n)))
    with (count_upto g (S n) + (if g (S n) then 1 else 0)).
  rewrite IH. cbn [count_upto]. lia.
Qed.

Lemma count_upto_bounds (g : nat -> bool) (n : nat) :
  0 <= count_upto g n <= Z.of_nat n.
Proof.
  induction n as [| n IH]; cbn [count_upto]; [lia |].
  destruct (g n); lia.
Qed.

Lemma reading_after_round (w : World) (k : nat) :
  reading (mk_World (timer w) (S (S (S (ticks w)))) (fips_mode w)
             (measured w)) k
  = reading w (3 + k).
Proof. unfold reading. cbn [timer ticks]. do 2 f_equal. lia. Qed.

Lemma round_after_round (w : World) (j : nat) :
  let w3 := mk_World (timer w) (S (S (S (ticks w)))) (fips_mode w)
              (measured w) in
  reading w3 (3 * j) = reading w (3 * S j) /\
  reading w3 (3 * j + 2) = reading w (3 * S j + 2) /\
  round_delta w3 j = round_delta w (S j) /\
  backward_round w3 j = backward_round w (S j) /\
  coarse_round w3 j = coarse_round w (S j).
Proof.
  cbv zeta. unfold coarse_round, backward_round, round_delta.
  rewrite !reading_after_round.
  replace (3 + 3 * j)%nat with (3 * S j)%nat by lia.
  replace (3 + (3 * j + 2))%nat with (3 * S j + 2)%nat by lia.
  auto.
Qed.

(** What [n] rounds that all pass their checks have seen and counted. *)
Lemma init_loop_inv (teb : Z) (n : nat) :
  forall i0 v w v' w',
  init_loop teb n (Z.of_nat i0) v w = inr (v', w') ->
  (forall j, (j < n)%nat ->
     reading w (3 * j) <> 0 /\ reading w (3 * j + 2) <> 0 /\
     1 <= round_delta w j /\ teb <= round_delta w j) /\
  time_backwards v'
  = time_backwards v
    + count_upto (fun j => measured_round (i0 + j) && backward_round w j) n /\
  count_mod v'
  = count_mod v
    + count_upto (fun j => measured_round (i0 + j) && coarse_round w j) n.
Proof.
  induction n as [| n IH]; intros i0 v w v' w'.
  - cbn [init_loop count_upto]. intros [= <- <-].
    split; [intros j Hj; lia | lia].
  - rewrite init_loop_succ, init_body_unfold. cbv zeta.
    destruct (Z.eqb_spec (reading w 0) 0) as [| H0]; [discriminate |].
    destruct (Z.eqb_spec (reading w 2) 0) as [| H2]; [discriminate |].
    cbn [orb].
    destruct (Z.eqb_spec (wrap (reading w 2 - reading w 0)) 0)
      as [| Hd]; [discriminate |].
    destruct (teb >? wrap (reading w 2 - reading w 0)) eqn:Hteb;
      [discriminate |].
    rewrite Z.gtb_ltb in Hteb. apply Z.ltb_ge in Hteb.
    pose proof (wrap_range (reading w 2 - reading w 0)) as [Hnn _].
    assert (Hround0 : reading w (3 * 0) <> 0 /\
                      reading w (3 * 0 + 2) <> 0 /\
                      1 <= round_delta w 0 /\ teb <= round_delta w 0).
    { unfold round_delta. cbn [Nat.mul Nat.add]. repeat split; try lia;
        assumption. }
    replace (Z.of_nat i0 + 1) with (Z.of_nat (S i0)) by lia.
    assert (Hstep : forall v1,
      init_loop teb n (Z.of_nat (S i0)) v1
        (mk_World (timer w) (S (S (S (ticks w)))) (fips_mode w)
           (measured w)) = inr (v', w') ->
      time_backwards v1
      = time_backwards v
        + (if measured_round (i0 + 0) && backward_round w 0 then 1 else 0) ->
      count_mod v1
      = count_mod v
        + (if measured_round (i0 + 0) && coarse_round w 0 then 1 else 0) ->
      (forall j, (j < S n)%nat ->
         reading w (3 * j) <> 0 /\ reading w (3 * j + 2) <> 0 /\
         1 <= round_delta w j /\ teb <= round_delta w j) /\
      time_backwards v'
      = time_backwards v
        + count_upto
            (fun j => measured_round (i0 + j) && backward_round w j) (S n) /\
      count_mod v'
      = count_mod v
        + count_upto
            (fun j => measured_round (i0 + j) && coarse_round w j) (S n)).
    { intros v1 Hrun Htb Hcm.
      apply IH in Hrun as (Hrounds & Htb' & Hcm').
      split; [| split].
      - intros [| j] Hj; [exact Hround0 |].
        destruct (round_after_round w j) as (R0 & R2 & Rd & _).
        cbv zeta in R0, R2, Rd. rewrite <- R0, <- R2, <- Rd.
        apply Hrounds. lia.
      - rewrite count_upto_shift, Htb', Htb.
        rewrite (count_upto_ext _
                   (fun j => measured_round (i0 + S j)
                             && backward_round w (S j))).
        + lia.
        + intros j _. destruct (round_after_round w j) as (_ & _ & _ & Rb & _).
          cbv zeta in Rb. rewrite Rb. do 2 f_equal. lia.
      - rewrite count_upto_shift, Hcm', Hcm.
        rewrite (count_upto_ext _
                   (fun j => measured_round (i0 + S j)
                             && coarse_round w (S j))).
        + lia.
        + intros j _. destruct (round_after_round w j) as (_ & _ & _ & _ & Rc).
          cbv zeta in Rc. rewrite Rc. do 2 f_equal. lia. }
    unfold measured_round in Hstep. rewrite Nat.add_0_r in Hstep.
    unfold CLEARCACHE.
    destruct (100 >? Z.of_nat i0) eqn:Hwarm.
    + rewrite Z.gtb_ltb in Hwarm. apply Z.ltb_lt in Hwarm.
      intros Hrun. apply (Hstep v Hrun).
      * replace (100 <=? i0)%nat with false
          by (symmetry; apply Nat.leb_gt; lia).
        cbn [andb]. lia.
      * replace (100 <=? i0)%nat with false
          by (symmetry; apply Nat.leb_gt; lia).
        cbn [andb]. lia.
    + rewrite Z.gtb_ltb in Hwarm. apply Z.ltb_ge in Hwarm.
      intros Hrun. apply (Hstep _ Hrun).
      * replace (100 <=? i0)%nat with true
          by (symmetry; apply Nat.leb_le; lia).
        cbn [andb time_backwards]. unfold backward_round.
        cbn [Nat.mul Nat.add].
        destruct (negb (reading w 2 >? reading w 0)); lia.
      * replace (100 <=? i0)%nat with true
          by (symmetry; apply Nat.leb_le; lia).
        cbn [andb count_mod]. unfold coarse_round, round_delta.
        cbn [Nat.mul Nat.add].
        destruct (wrap (reading w 2 - reading w 0) mod 100 =? 0); lia.
Qed.

(** What a successful startup test has seen and counted. *)
Lemma init_ok_inv (teb : Z) (w : World) :
  jent_entropy_init teb w = INIT_OK ->
  (forall i, (i < 400)%nat ->
     reading w (3 * i) <> 0 /\ reading w (3 * i + 2) <> 0 /\
     1 <= round_delta w i /\ teb <= round_delta w i) /\
  count_upto (fun i => measured_round i && backward_round w i) 400 <= 3 /\
  count_upto (fun i => measured_round i && coarse_round w i) 400 <= 270.
Proof.
  unfold jent_entropy_init.
  change (Z.to_nat (TESTLOOPCOUNT + CLEARCACHE)) with 400%nat.
  destruct (init_loop teb 400 0 init_vars0 w) as [e | [v w']] eqn:E.
  - intros ->. apply init_loop_errors in E. intuition discriminate.
  - change 0 with (Z.of_nat 0) in E.
    apply init_loop_inv in E as (Hrounds & Htb & Hcm).
    cbn [Nat.add time_backwards count_mod init_vars0] in Htb, Hcm.
    rewrite Z.add_0_l in Htb, Hcm.
    unfold init_checks. intros Hok. split; [exact Hrounds |].
    destruct (3 <? time_backwards v) eqn:H3; [discriminate |].
    destruct (delta_sum v =? 0); [discriminate |].
    destruct (_ >? teb); [discriminate |].
    destruct (TESTLOOPCOUNT / 10 * 9 <? count_mod v) eqn:H270;
      [discriminate |].
    apply Z.ltb_ge in H3, H270.
    change (TESTLOOPCOUNT / 10 * 9) with 270 in H270.
    split; [rewrite <- Htb | rewrite <- Hcm]; lia.
Qed.

(** X14.  When the startup test returns success, every one of its 400
    rounds has read a non-zero time twice and seen a delta of at least 1
    and at least [TIME_ENTROPY_BITS] between the two; of the 300
    measured rounds at most 3 have seen time not advance and at most 270
    a delta that is a multiple of 100. *)
Theorem init_success_guarantees (teb : Z) (w : World) :
  jent_entropy_init teb w = INIT_OK ->
  (forall i, (i < 400)%nat ->
     reading w (3 * i) <> 0 /\ reading w (3 * i + 2) <> 0 /\
     1 <= round_delta w i /\ teb <= round_delta w i) /\
  count_upto (fun i => measured_round i && backward_round w i) 400 <= 3 /\
  count_upto (fun i => measured_round i && coarse_round w i) 400 <= 270.
Proof. apply init_ok_inv. Qed.

Lemma init_success_guarantees_witness :
  (forall i, (i < 400)%nat ->
     reading (boot wobbling_timer false) (3 * i) <> 0 /\
     reading (boot wobbling_timer false) (3 * i + 2) <> 0 /\
     1 <= round_delta (boot wobbling_timer false) i /\
     1 <= round_delta (boot wobbling_timer false) i) /\
  count_upto (fun i => measured_round i
                       && backward_round (boot wobbling_timer false) i)
    400 <= 3 /\
  count_upto (fun i => measured_round i
                       && coarse_round (boot wobbling_timer false) i)
    400 <= 270.
Proof.
  apply (init_success_guarantees 1 (boot wobbling_timer false)).
  now vm_compute.
Defined.

(** X15.  A timer under which every measured round of the startup test
    sees a delta that is a multiple of 100 is never accepted. *)
Theorem init_rejects_steps_of_100 (teb : Z) (w : World) :
  (forall i, (100 <= i < 400)%nat -> round_delta w i mod 100 = 0) ->
  jent_entropy_init teb w <> INIT_OK.
Proof.
  intros Hcoarse Hok.
  apply init_ok_inv in Hok as (_ & _ & Hcount).
  rewrite (count_upto_ext _ measured_round) in Hcount.
  - vm_compute in Hcount. now apply Hcount.
  - intros j Hj. unfold measured_round, coarse_round.
    destruct (Nat.leb_spec 100 j) as [Hge | Hlt]; [| reflexivity].
    rewrite Hcoarse by lia. reflexivity.
Qed.

Lemma init_rejects_steps_of_100_witness :
  jent_entropy_init 1 (boot coarse_timer false) <> INIT_OK.
Proof.
  apply (init_rejects_steps_of_100 1 (boot coarse_timer false)).
  intros i Hi.
  assert (Hall : forallb
                   (fun i => round_delta (boot coarse_timer false) i mod 100
                             =? 0) (seq 100 300) = true)
    by now vm_compute.
  rewrite forallb_forall in Hall.
  apply Z.eqb_eq, Hall, in_seq. lia.
Defined.

(** X16.  With at least one time entropy bit the startup test returns
    EMINVARVAR for no timer at all: its results are success, ENOTIME,
    ECOARSETIME, EMINVARIATION, ENOMONOTONIC and EVARVAR. *)
Theorem init_never_reports_minvarvar (teb : Z) (w : World) :
  1 <= teb -> jent_entropy_init teb w <> EMINVARVAR.
Proof. apply init_never_minvarvar. Qed.

Lemma init_never_reports_minvarvar_witness :
  jent_entropy_init 1 (boot wobbling_timer false) <> EMINVARVAR.
Proof.
  apply (init_never_reports_minvarvar 1 (boot wobbling_timer false)). lia.
Defined.

(** ** The statistics entry points *)

(** X17.  In the statistics build [jent_fold_time_stat] hands back one
    fold pass over the delta between the third and the first reading it
    takes, a value below [2 ^ TIME_ENTROPY_BITS], together with a loop
    count between 1 and 16, and takes four readings in all;
    [jent_fold_var_stat] hands back that same kind of delta, the one a
    round of the startup test sees, and takes three readings. *)
Theorem statistics_entry_points (teb : Z) (ec : option rand_data)
    (min : Z) (w : World) :
  1 <= teb <= 64 ->
  fst (fst (fst (jent_fold_time_stat teb ec w)))
    = fold_pass teb (round_delta w 0) /\
  0 <= fst (fst (fst (jent_fold_time_stat teb ec w))) < 2 ^ teb /\
  1 <= snd (fst (fst (jent_fold_time_stat teb ec w))) <= 16 /\
  ticks (snd (jent_fold_time_stat teb ec w)) = (ticks w + 4)%nat /\
  fst (fst (jent_fold_var_stat teb ec min w)) = round_delta w 0 /\
  ticks (snd (jent_fold_var_stat teb ec min w)) = (ticks w + 3)%nat.
Proof.
  intros Hteb.
  assert (Hdelta : round_delta w 0
                   = wrap (wrap (timer w (S (S (ticks w))))
                           - wrap (timer w (ticks w)))).
  { unfold round_delta. cbn [Nat.mul Nat.add].
    now rewrite reading_0, reading_2. }
  assert (Hfold : fst (fst (fst (jent_fold_time_stat teb ec w)))
                  = fold_pass teb (round_delta w 0)).
  { rewrite Hdelta. unfold jent_fold_time_stat, jent_get_nstime.
    pose proof (fold_time_world teb (option_map jent_memaccess ec)
                  (wrap (timer w (ticks w))) 0
                  (mk_World (timer w) (S (ticks w)) (fips_mode w)
                     (measured w))) as Hw.
    destruct (jent_fold_time teb _ (wrap (timer w (ticks w))) 0 _)
      as [[f1 n1] w2].
    cbn [snd timer ticks fips_mode measured] in Hw. subst w2.
    cbn [timer ticks fips_mode measured].
    match goal with
    | |- context [jent_fold_time teb ?e ?t 0 ?w0] =>
        pose proof (jent_fold_time_folded teb e t w0) as Hf;
        destruct (jent_fold_time teb e t 0 w0) as [[f2 n2] w4]
    end.
    exact Hf. }
  split; [exact Hfold |].
  split; [rewrite Hfold; now apply fold_pass_range |].
  split.
  { unfold jent_fold_time_stat, jent_get_nstime.
    destruct (jent_fold_time teb _ (wrap (timer w (ticks w))) 0 _)
      as [[f1 n1] w2].
    match goal with
    | |- context [jent_fold_time teb ?e ?t 0 ?w0] =>
        pose proof (fold_loop_count_range teb e t w0) as Hc;
        destruct (jent_fold_time teb e t 0 w0) as [[f2 n2] w4]
    end.
    exact Hc. }
  split.
  { unfold jent_fold_time_stat, jent_get_nstime.
    pose proof (fold_time_world teb (option_map jent_memaccess ec)
                  (wrap (timer w (ticks w))) 0
                  (mk_World (timer w) (S (ticks w)) (fips_mode w)
                     (measured w))) as Hw.
    destruct (jent_fold_time teb _ (wrap (timer w (ticks w))) 0 _)
      as [[f1 n1] w2].
    cbn [snd timer ticks fips_mode measured] in Hw. subst w2.
    cbn [timer ticks fips_mode measured].
    match goal with
    | |- context [jent_fold_time teb ?e ?t 0 ?w0] =>
        pose proof (fold_time_world teb e t 0 w0) as Hw4;
        destruct (jent_fold_time teb e t 0 w0) as [[f2 n2] w4]
    end.
    cbn [snd] in Hw4 |- *. subst w4. cbn [ticks]. lia. }
  rewrite Hdelta. unfold jent_fold_var_stat, jent_get_nstime.
  pose proof (fold_time_world teb None (wrap (timer w (ticks w))) min
                (mk_World (timer w) (S (ticks w)) (fips_mode w)
                   (measured w))) as Hw.
  destruct (jent_fold_time teb None (wrap (timer w (ticks w))) min _)
    as [[f1 n1] w2].
  cbn [snd timer ticks fips_mode measured] in Hw. subst w2.
  cbn [fst snd timer ticks]. split; [reflexivity | lia].
Qed.

Lemma statistics_entry_points_witness :
  fst (fst (fst (jent_fold_time_stat 1 None (boot steady_timer false))))
    = fold_pass 1 (round_delta (boot steady_timer false) 0) /\
  0 <= fst (fst (fst (jent_fold_time_stat 1 None
                        (boot steady_timer false)))) < 2 ^ 1 /\
  1 <= snd (fst (fst (jent_fold_time_stat 1 None
                        (boot steady_timer false)))) <= 16 /\
  ticks (snd (jent_fold_time_stat 1 None (boot steady_timer false)))
    = (ticks (boot steady_timer false) + 4)%nat /\
  fst (fst (jent_fold_var_stat 1 None 0 (boot steady_timer false)))
    = round_delta (boot steady_timer false) 0 /\
  ticks (snd (jent_fold_var_stat 1 None 0 (boot steady_timer false)))
    = (ticks (boot steady_timer false) + 3)%nat.
Proof.
  apply (statistics_entry_points 1 None 0 (boot steady_timer false)). lia.
Defined.

(** ** The unbiaser's result *)

Lemma unbias_loop_bit (teb : Z) (fuel : nat) :
  forall c w x c' w', unbias_loop teb fuel c w = Some (x, c', w') ->
  (x = 0 \/ x = 1) /\
  exists pairs, (1 <= pairs <= fuel)%nat /\
                measured w' = (measured w + 2 * pairs)%nat /\
                ticks w' = (ticks w + 4 * pairs)%nat.
Proof.
  induction fuel as [| fuel IH]; intros c w x c' w'; [discriminate |].
  rewrite unbias_loop_step. unfold draw_pair.
  destruct (jent_measure_jitter teb c w) as [[a c1] w1] eqn:E1.
  destruct (jent_measure_jitter teb c1 w1) as [[b c2] w2] eqn:E2.
  apply measure_jitter_frame in E1 as (_ & _ & _ & M1 & T1 & _).
  apply measure_jitter_frame in E2 as (_ & _ & _ & M2 & T2 & _).
  destruct (a =? b).
  - intros Hrun. apply IH in Hrun as (Hx & pairs & Hp & Hm & Ht).
    split; [exact Hx |]. exists (S pairs). lia.
  - intros Hrun.
    assert (Hx : x = 0 \/ x = 1)
      by (destruct (1 =? a); injection Hrun as <- _ _; auto).
    assert (Hw : w2 = w') by (destruct (1 =? a); now injection Hrun).
    subst w'. split; [exact Hx |].
    exists 1%nat. lia.
Qed.

(** X18.  With unbiasing enabled, whatever [jent_unbiased_bit] returns
    is 0 or 1, and the call has drawn whole pairs: at least one, an even
    number of jitter measurements and four timer readings per pair. *)
Theorem unbiased_bit_is_a_bit
    (teb : Z) (fuel : nat) (c : rand_data) (w : World)
    (x : Z) (c' : rand_data) (w' : World) :
  disable_unbias c = false ->
  jent_unbiased_bit teb fuel c w = Some (x, c', w') ->
  (x = 0 \/ x = 1) /\
  exists pairs, (1 <= pairs <= fuel)%nat /\
                measured w' = (measured w + 2 * pairs)%nat /\
                ticks w' = (ticks w + 4 * pairs)%nat.
Proof.
  intros Hunbias. unfold jent_unbiased_bit. rewrite Hunbias.
  apply unbias_loop_bit.
Qed.

Lemma unbiased_bit_is_a_bit_witness :
  exists x c' w',
    jent_unbiased_bit 1 7 (collector 0 0 false true false)
      (boot drifting_timer false) = Some (x, c', w') /\
    (x = 0 \/ x = 1) /\
    exists pairs, (1 <= pairs <= 7)%nat /\
                  measured w'
                  = (measured (boot drifting_timer false) + 2 * pairs)%nat /\
                  ticks w'
                  = (ticks (boot drifting_timer false) + 4 * pairs)%nat.
Proof.
  do 3 eexists. split; [vm_compute; reflexivity |].
  eapply (unbiased_bit_is_a_bit 1 7 (collector 0 0 false true false)
            (boot drifting_timer false)); [reflexivity |].
  vm_compute. reflexivity.
Defined.

(** ** A failed read is final *)

Lemma read_entropy_result
    (teb : Z) (wide : bool) (secure : bool) (fuel : nat) (c : rand_data)
    (buf : list Z) (len : Z) (w : World)
    (r : Z) (buf' : list Z) (c' : rand_data) (w' : World) :
  0 <= len < 2 ^ 31 ->
  jent_read_entropy teb wide secure fuel (Some c) buf len w
  = Some (r, buf', Some c', w') ->
  (r = len \/ (r = -1 /\ fips_mode w = true /\ fips_fail c' = true)) /\
  same_platform w w'.
Proof.
  intros Hlen. rewrite read_entropy_unfold.
  destruct (read_loop _ _ _ _ _ _ _ _) as [[[[r1 buf1] c1] w1] |] eqn:E1;
    [| discriminate].
  apply read_loop_outcome in E1 as [P1 Hr1].
  destruct Hr1 as [-> | (-> & Hm & Hf)].
  - change (0 >? 0) with false. cbv iota.
    rewrite to_int_small by assumption.
    destruct secure; [intros [= <- _ <- <-]; auto |].
    destruct (jent_gen_entropy teb wide fuel c1 w1) as [[[u c2] w2] |] eqn:E2;
      [| discriminate].
    apply gen_entropy_frame in E2 as [_ P2].
    intros [= <- _ <- <-].
    split; [now left | eapply same_platform_trans; eassumption].
  - change (0 >? -1) with true. cbv iota. intros [= <- _ <- <-]. auto.
Qed.

(** X19.  Once a read of 1 to [2 ^ 31 - 1] bytes has returned -1, every
    later read of at least one byte on that collector that returns gives
    -1 again and leaves the caller's buffer as it is, whatever the
    buffer, the length and the bound on the unbiaser: the collector
    yields no more bytes. *)
Theorem failed_read_is_final
    (teb : Z) (wide : bool) (secure : bool) (fuel : nat) (c : rand_data)
    (buf : list Z) (len : Z) (w : World)
    (buf1 : list Z) (c1 : rand_data) (w1 : World)
    (fuel2 : nat) (buf2 : list Z) (len2 : Z)
    (r2 : Z) (buf2' : list Z) (ec2 : option rand_data) (w2 : World) :
  0 < len < 2 ^ 31 ->
  jent_read_entropy teb wide secure fuel (Some c) buf len w
  = Some (-1, buf1, Some c1, w1) ->
  0 < len2 ->
  jent_read_entropy teb wide secure fuel2 (Some c1) buf2 len2 w1
  = Some (r2, buf2', ec2, w2) ->
  r2 = -1 /\ buf2' = buf2.
Proof.
  intros Hlen E1 Hlen2.
  apply read_entropy_result in E1 as [Hr P1]; [| lia].
  destruct Hr as [Hbad | (_ & Hmode & Hfail)]; [lia |].
  assert (Hmode1 : fips_mode w1 = true) by (destruct P1; congruence).
  rewrite read_entropy_unfold.
  destruct (Z.to_nat len2) as [| n] eqn:En; [lia |].
  rewrite read_loop_step by assumption.
  destruct (jent_gen_entropy teb wide fuel2 c1 w1) as [[[u c3] w3] |] eqn:E3;
    [| discriminate].
  apply gen_entropy_frame in E3 as [(_ & Hf3 & _) (_ & Hm3)].
  rewrite fips_test_unfold.
  replace (fips_mode w3) with true by congruence.
  replace (fips_fail c3) with true by congruence.
  cbn [negb]. change (0 >? -1) with true. cbv iota.
  now intros [= <- <- _ _].
Qed.

Lemma failed_read_is_final_witness :
  exists buf1 c1 w1 r2 buf2' ec2 w2,
    jent_read_entropy 1 true false 1 (Some (collector 1 0 false false true))
      [0; 0] 2 (boot stuck_timer true) = Some (-1, buf1, Some c1, w1) /\
    jent_read_entropy 1 true false 1 (Some c1) [7; 7; 7] 3 w1
    = Some (r2, buf2', ec2, w2) /\
    r2 = -1 /\ buf2' = [7; 7; 7].
Proof.
  do 7 eexists.
  split; [vm_compute; reflexivity |].
  split; [vm_compute; reflexivity |].
  eapply (failed_read_is_final 1 true false 1
            (collector 1 0 false false true) [0; 0] 2
            (boot stuck_timer true) _ _ _ 1 [7; 7; 7] 3);
    [lia | vm_compute; reflexivity | lia | vm_compute; reflexivity].
Defined.

(** ** The rounds of a generation pass *)

Lemma ceil_div_64_range (teb : Z) : 1 <= teb -> 1 <= ceil_div 64 teb <= 64.
Proof.
  intros Hteb. unfold ceil_div. split.
  - apply Z.div_le_lower_bound; lia.
  - apply Z.div_le_upper_bound; lia.
Qed.

(** X20.  The loop of a generation pass is bounded by the product
    [ceil (64 / teb) * osr] as the build computes it: in 64 bits, where
    it is exact, or in 32 bits, where it is reduced modulo [2 ^ 32].  A
    bound of [2 ^ 32] or more is beyond the [unsigned int] counter, and
    the pass never returns.  With a bound below [2 ^ 32] and the
    unbiaser off the pass returns, after as many jitter measurements as
    the bound says and the priming one, or after none at all when the
    bound is 0. *)
Theorem gen_pass_rounds
    (teb : Z) (wide : bool) (fuel : nat) (c : rand_data) (w : World) :
  1 <= teb -> 0 <= osr c < 2 ^ 32 ->
  gen_rounds teb wide c
  = (if wide then ceil_div 64 teb * osr c
     else (ceil_div 64 teb * osr c) mod 2 ^ 32) /\
  (2 ^ 32 <= gen_rounds teb wide c ->
   jent_gen_entropy teb wide fuel c w = None) /\
  (gen_rounds teb wide c < 2 ^ 32 -> disable_unbias c = true ->
   exists c' w',
     jent_gen_entropy teb wide fuel c w = Some (tt, c', w') /\
     Z.of_nat (measured w')
     = Z.of_nat (measured w)
       + (if gen_rounds teb wide c =? 0 then 0
          else gen_rounds teb wide c + 1)).
Proof.
  intros Hteb Hosr. split; [| split].
  - pose proof (ceil_div_64_range teb Hteb) as Hceil.
    assert (Hrounds : (DATA_SIZE_BITS - 1) / teb + 1 = ceil_div 64 teb).
    { unfold ceil_div, DATA_SIZE_BITS.
      replace (64 + teb - 1) with (63 + 1 * teb) by lia.
      rewrite Z.div_add by lia. reflexivity. }
    unfold gen_rounds. cbv zeta. rewrite Hrounds.
    destruct wide; [| reflexivity].
    unfold wrap, modulus, DATA_SIZE_BITS. apply Z.mod_small.
    change (2 ^ 32) with 4294967296 in Hosr.
    change (2 ^ 64) with 18446744073709551616. nia.
  - apply gen_entropy_beyond_counter.
  - apply gen_entropy_no_unbias_rounds.
Qed.

Lemma gen_pass_rounds_witness :
  jent_gen_entropy 1 true 1
    (mk_rand_data 0 42 0 false (2 ^ 26) true true None 0 0 0 0)
    (boot steady_timer false) = None.
Proof.
  refine (proj1 (proj2 (gen_pass_rounds 1 true 1
                          (mk_rand_data 0 42 0 false (2 ^ 26) true true
                             None 0 0 0 0)
                          (boot steady_timer false) _ _)) _).
  - lia.
  - split; now vm_compute.
  - now vm_compute.
Defined.
